(** * NDPSO: the discrete particle swarm optimizer of CDFLM-WASM

    A shallow embedding of [src/wasm/include/NDPSO.cpp] and the properties
    its specification states about it.

    The translation unit includes [NDPSO.h], [Utils.h], [Particle.h],
    [ObjectiveStrategy.h] and [AssignmentStrategy.h].  What those headers
    declare (the [Particle] class, the two strategies, the listener, the
    constants [MINIMIZE] and [MAXIMIZE]) is taken as a parameter of the
    development, see [Collaborators]; the few members whose behaviour a
    property depends on are modelled from the specification and marked so.

    C++ [float] and [double] are IEEE 754 binary32 and binary64, modelled
    with the Standard Library's [SpecFloat]; C++ [int] is modelled by [Z].
    The counters of the sweep and of the swarm construction cannot
    overflow; the iteration counter of [optimize] can, and its increment is
    checked against [INT_MAX]: signed overflow is undefined behaviour.

    An outcome [Undefined] marks the point where the behaviour of the
    program ceases to be defined; the world paired with it is the one in
    which that point was reached. *)

From Stdlib Require Import ZArith String List Bool Lia Sorted.
From Stdlib Require Import Floats.SpecFloat.
Import ListNotations.
Open Scope Z_scope.

(** ** Floating point *)

Module Flt.

(** [float] and [double] share the carrier [spec_float]; a value of type
    [float] is always the result of a rounding to binary32. *)
Definition float := spec_float.
Definition double := spec_float.

Definition double_of_int (z : Z) : double := binary_normalize 53 1024 z 0 false.
Definition float_of_int (z : Z) : float := binary_normalize 24 128 z 0 false.

(** The decimal literal [n/d] (as in [0.1], [0.9], [0.2]): the binary64
    number nearest to the quotient. *)
Definition double_lit (n d : Z) : double :=
  SFdiv 53 1024 (double_of_int n) (double_of_int d).

(** Conversion [double -> float]: rounds to nearest, ties to even. *)
Definition float_of_double (x : double) : float :=
  match x with
  | S754_finite s m e => binary_round 24 128 s m e
  | _ => x
  end.

(** Promotion [float -> double]: exact; the mantissa is re-aligned so that
    the value is canonical in binary64. *)
Definition double_of_float (x : float) : double :=
  match x with
  | S754_finite s m e => binary_round 53 1024 s m e
  | _ => x
  end.

Definition fmul (x y : float) : float := SFmul 24 128 x y.
Definition fdiv (x y : float) : float := SFdiv 24 128 x y.
Definition dadd (x y : double) : double := SFadd 53 1024 x y.
Definition dleb (x y : double) : bool := SFleb x y.

(** [(float) n/d]: what a [float] initialised or assigned from the decimal
    literal holds. *)
Definition float_lit (n d : Z) : float := float_of_double (double_lit n d).

End Flt.
Import Flt.

(** ** Outcomes of a call

    A call returns, throws (the file throws string literals), runs into
    undefined behaviour, or is cut off by the fuel of the model. *)

Inductive Outcome (A : Type) : Type :=
| Returned (a : A)
| Thrown (what : string)
| Undefined
| OutOfFuel.
Arguments Returned {A} a.
Arguments Thrown {A} what.
Arguments Undefined {A}.
Arguments OutOfFuel {A}.

Definition isReturned {A} (o : Outcome A) : bool :=
  match o with Returned _ => true | _ => false end.

Definition isThrown {A} (o : Outcome A) : bool :=
  match o with Thrown _ => true | _ => false end.

(** ** Data model *)

(** [ProblemData] (declared in a header): the fields this file reads. The tags
    [type] and [objType] are integral (the code switches on [objType]). *)
Record ProblemData := mkProblemData {
  name : string;
  costs : list (list Z);
  numFacilities : Z;
  numCustomers : Z;
  type : Z;
  objType : Z
}.

(** [ProblemResults]: the six members of the aggregate built by [optimize]. *)
Record ProblemResults := mkProblemResults {
  r_time : float;
  r_fitness : Z;
  r_position : list Z;
  r_customerAssignments : list Z;
  r_type : Z;
  r_objType : Z
}.

(** Modelled from the spec: the [Comparator] member of the optimizer (its
    class is declared in a header that is not part of the sources). It is
    stateful only in its direction flag, set by [setType]. *)
Record Comparator := mkComparator { cmpType : Z }.

Definition setType (t : Z) (c : Comparator) : Comparator := mkComparator t.

Section Engine.

(** The class [Particle] of [Particle.h], and the state of everything the
    program reaches outside this file: the random generator of the C
    library, the processor clock, the listener's sink, standard output. *)
Context {Particle : Type} {Ext : Type}.

(** The members of [NDPSO] (declared in [NDPSO.h]) that this file uses. *)
Record NDPSO := mkNDPSO {
  swarmSize : Z;
  social : float;
  cognitive : float;
  inertia : float;
  initialInertia : float;
  inertialDiscount : float;
  maxIterations : Z;
  data : ProblemData;
  comparator : Comparator;
  swarm : list Particle
}.

Definition set_swarm (s : list Particle) (t : NDPSO) : NDPSO :=
  mkNDPSO (swarmSize t) (social t) (cognitive t) (inertia t) (initialInertia t)
          (inertialDiscount t) (maxIterations t) (data t) (comparator t) s.

Definition set_data (d : ProblemData) (t : NDPSO) : NDPSO :=
  mkNDPSO (swarmSize t) (social t) (cognitive t) (inertia t) (initialInertia t)
          (inertialDiscount t) (maxIterations t) d (comparator t) (swarm t).

Definition set_comparator (c : Comparator) (t : NDPSO) : NDPSO :=
  mkNDPSO (swarmSize t) (social t) (cognitive t) (inertia t) (initialInertia t)
          (inertialDiscount t) (maxIterations t) (data t) c (swarm t).

Definition set_inertia (x : float) (t : NDPSO) : NDPSO :=
  mkNDPSO (swarmSize t) (social t) (cognitive t) x (initialInertia t)
          (inertialDiscount t) (maxIterations t) (data t) (comparator t) (swarm t).

Definition set_initialInertia (x : float) (t : NDPSO) : NDPSO :=
  mkNDPSO (swarmSize t) (social t) (cognitive t) (inertia t) x
          (inertialDiscount t) (maxIterations t) (data t) (comparator t) (swarm t).

Definition set_cognitive (x : float) (t : NDPSO) : NDPSO :=
  mkNDPSO (swarmSize t) (social t) x (inertia t) (initialInertia t)
          (inertialDiscount t) (maxIterations t) (data t) (comparator t) (swarm t).

Definition set_social (x : float) (t : NDPSO) : NDPSO :=
  mkNDPSO (swarmSize t) x (cognitive t) (inertia t) (initialInertia t)
          (inertialDiscount t) (maxIterations t) (data t) (comparator t) (swarm t).

(** [NDPSO::NDPSO(social, cognitive, inertia, inertialDiscount, swarmSize,
    maxIterations)]. The constructor does not touch [data] and
    [comparator] (their initial contents are arguments here) and leaves the
    swarm empty. *)
Definition NDPSO_new (d0 : ProblemData) (c0 : Comparator)
           (social cognitive inertia inertialDiscount : float)
           (swarmSize maxIterations : Z) : NDPSO :=
  mkNDPSO swarmSize social cognitive inertia inertia inertialDiscount
          maxIterations d0 c0 [].

(** What the other translation units provide. Calls into them are total
    functions of their arguments and of the external state; the optimizer
    is passed as the [this] pointer the callee holds, read-only. A fitness
    is an [int], as [NDPSO::calcObjective] returns it.

    The member [listener] is a pointer that nothing in [NDPSO.cpp] assigns:
    the constructors leave it as it is, and it is installed from outside.
    It is not a field of [NDPSO] below. The model is of an optimizer whose
    listener has been installed: the three handlers are calls into the
    external state. Nothing is stated here about a call through a pointer
    that was never set. *)
Class Collaborators := {
  (* Particle.h *)
  fitness : Particle -> Z;
  position : Particle -> list Z;
  Particle_new : Z -> Z -> NDPSO -> Ext -> Particle * Ext;
  Particle_update : NDPSO -> Particle -> Particle -> Ext -> Particle * Ext;
  (* AssignmentStrategy.h, ObjectiveStrategy.h *)
  AssignmentStrategy_assign : list (list Z) -> list Z -> Z -> list Z;
  ObjectiveStrategy_calcObjective : list (list Z) -> list Z -> Z -> Z;
  (* the listener *)
  handleAlgorithm : NDPSO -> string -> Z -> Z -> Ext -> Ext;
  handleParticle : Particle -> Z -> Ext -> Ext;
  handleResults : ProblemResults -> Ext -> Ext;
  (* <ctime>, <iostream> *)
  clock : Ext -> Z * Ext;
  CLOCKS_PER_SEC : Z;
  cout_done : Z -> Ext -> Ext;
  (* the case labels of [getGlobalBest] *)
  MINIMIZE : Z;
  MAXIMIZE : Z
}.

Context {collab : Collaborators}.

(** The calls that leave (or enter) the optimizer, in program order. *)
Inductive Event : Type :=
| EvSetInertia (c : float)
| EvSetCognitive (c : float)
| EvSetSocial (c : float)
| EvOptimize (d : ProblemData)
| EvParticleNew (numDimensions possibleFacs : Z)
| EvParticleUpdate (this : NDPSO) (gBest : Particle)
| EvHandleAlgorithm (this : NDPSO)
| EvHandleParticle (uBest : Particle) (count : Z)
| EvHandleResults (results : ProblemResults)
| EvDone (done : Z).

Record World := mkWorld {
  this : NDPSO;
  ext : Ext;
  log : list Event
}.

(** *** The monad of member functions *)

Definition M (A : Type) : Type := World -> Outcome A * World.

Definition ret {A} (a : A) : M A := fun w => (Returned a, w).

Definition bind {A B} (m : M A) (k : A -> M B) : M B :=
  fun w =>
    match m w with
    | (Returned a, w') => k a w'
    | (Thrown s, w') => (Thrown s, w')
    | (Undefined, w') => (Undefined, w')
    | (OutOfFuel, w') => (OutOfFuel, w')
    end.

Definition throw {A} (s : string) : M A := fun w => (Thrown s, w).
Definition undefined {A} : M A := fun w => (Undefined, w).
Definition outOfFuel {A} : M A := fun w => (OutOfFuel, w).

Definition getThis : M NDPSO := fun w => (Returned (this w), w).

Definition modifyThis (f : NDPSO -> NDPSO) : M unit :=
  fun w => (Returned tt, mkWorld (f (this w)) (ext w) (log w)).

Definition emit (e : Event) : M unit :=
  fun w => (Returned tt, mkWorld (this w) (ext w) (log w ++ [e])).

(** A call that changes the external state, and one that also returns. *)
Definition extern (f : Ext -> Ext) : M unit :=
  fun w => (Returned tt, mkWorld (this w) (f (ext w)) (log w)).

Definition externR {A} (f : Ext -> A * Ext) : M A :=
  fun w => let (a, x) := f (ext w) in (Returned a, mkWorld (this w) x (log w)).

Local Notation "x <- m ;; k" := (bind m (fun x => k))
  (at level 61, m at next level, right associativity).
Local Notation "m ;; k" := (bind m (fun _ => k))
  (at level 61, right associativity).

Definition liftOutcome {A} (o : Outcome A) : M A := fun w => (o, w).

(** Modelled from the spec: [Comparator::operator()], absent from the
    sources. For MINIMIZE it holds iff [a < b], for MAXIMIZE iff [a > b];
    an unrecognized direction is a configuration error. *)
Definition Comparator_prefers (c : Comparator) (a b : Z) : Outcome bool :=
  if cmpType c =? MINIMIZE then Returned (a <? b)
  else if cmpType c =? MAXIMIZE then Returned (a >? b)
  else Thrown "Comparator: unrecognized objType".

(** Modelled from the spec: [Particle::getCustomerAssignments], absent from
    the sources. The assignment is not stored in the particle; it is
    recomputed from the particle's position by the assignment strategy, on
    the problem held by the optimizer the particle points to. *)
Definition Particle_getCustomerAssignments (t : NDPSO) (p : Particle) : list Z :=
  AssignmentStrategy_assign (costs (data t)) (position p) (type (data t)).

(** Modelled from the spec: the setters of [NDPSO.h] used by the sweep. Each
    installs its coefficient; the inertia setter installs it as current and
    as initial inertia, as the constructors do. *)
Definition setInertia (c : float) : M unit :=
  emit (EvSetInertia c) ;;
  modifyThis (fun t => set_initialInertia c (set_inertia c t)).

Definition setCognitive (c : float) : M unit :=
  emit (EvSetCognitive c) ;; modifyThis (set_cognitive c).

Definition setSocial (c : float) : M unit :=
  emit (EvSetSocial c) ;; modifyThis (set_social c).

(** *** [struct minFitness] *)
Definition minFitness (left right : Particle) : bool :=
  fitness left <? fitness right.

(** *** [std::min_element], [std::max_element]

    An iterator into the range is an index, [length l] standing for
    [last]. Both algorithms return [last] on an empty range and otherwise
    keep the first extremal element: the candidate is replaced only when
    [comp] holds strictly. *)
Fixpoint min_element_from (comp : Particle -> Particle -> bool)
         (rest : list Particle) (first smallest : nat) (smallestV : Particle) : nat :=
  match rest with
  | [] => smallest
  | x :: rest' =>
      if comp x smallestV
      then min_element_from comp rest' (S first) first x
      else min_element_from comp rest' (S first) smallest smallestV
  end.

Definition min_element (comp : Particle -> Particle -> bool) (l : list Particle) : nat :=
  match l with
  | [] => O
  | x :: rest => min_element_from comp rest 1%nat O x
  end.

Fixpoint max_element_from (comp : Particle -> Particle -> bool)
         (rest : list Particle) (first largest : nat) (largestV : Particle) : nat :=
  match rest with
  | [] => largest
  | x :: rest' =>
      if comp largestV x
      then max_element_from comp rest' (S first) first x
      else max_element_from comp rest' (S first) largest largestV
  end.

Definition max_element (comp : Particle -> Particle -> bool) (l : list Particle) : nat :=
  match l with
  | [] => O
  | x :: rest => max_element_from comp rest 1%nat O x
  end.

(** [*it]: dereferencing [last] is undefined behaviour. *)
Definition deref (l : list Particle) (it : nat) : M Particle :=
  match nth_error l it with
  | Some p => ret p
  | None => undefined
  end.

(** *** [NDPSO::getGlobalBest] *)
Definition getGlobalBest : M Particle :=
  t <- getThis ;;
  let func := minFitness in
  if objType (data t) =? MINIMIZE then
    deref (swarm t) (min_element func (swarm t))
  else if objType (data t) =? MAXIMIZE then
    deref (swarm t) (max_element func (swarm t))
  else
    throw "NDPSO::getGlobalBest(): unrecognized this->data.objType!".

(** *** [NDPSO::calcObjective] *)
Definition calcObjective (facilities : list Z) : M Z :=
  t <- getThis ;;
  let customerAssignments :=
    AssignmentStrategy_assign (costs (data t)) facilities (type (data t)) in
  ret (ObjectiveStrategy_calcObjective (costs (data t)) customerAssignments (type (data t))).

(** *** [NDPSO::initSwarm] *)
Fixpoint initSwarm_loop (n : nat) (numDimensions possibleFacs : Z) : M unit :=
  match n with
  | O => ret tt
  | S n' =>
      t <- getThis ;;
      emit (EvParticleNew numDimensions possibleFacs) ;;
      particle <- externR (Particle_new numDimensions possibleFacs t) ;;
      modifyThis (fun t => set_swarm (swarm t ++ [particle]) t) ;;
      initSwarm_loop n' numDimensions possibleFacs
  end.

Definition initSwarm : M unit :=
  t <- getThis ;;
  (if 0 <? Z.of_nat (length (swarm t))
   then modifyThis (set_swarm [])
   else ret tt) ;;
  t <- getThis ;;
  let numDimensions := numFacilities (data t) in
  let possibleFacs := numCustomers (data t) in
  (* for (int i = 0; i < this->swarmSize; i++) *)
  initSwarm_loop (Z.to_nat (swarmSize t)) numDimensions possibleFacs.

(** *** [NDPSO::optimize] *)

(** [for (Particle &particle : this->swarm) particle.update(gBest);]
    The particles are updated in place, in swarm order: while the particle
    at the head of [pending] is updated the swarm is [updated ++ pending]. *)
Fixpoint updateParticles (updated pending : list Particle) (gBest : Particle) : M unit :=
  match pending with
  | [] => ret tt
  | particle :: rest =>
      t <- getThis ;;
      emit (EvParticleUpdate t gBest) ;;
      particle' <- externR (Particle_update t gBest particle) ;;
      modifyThis (set_swarm (updated ++ particle' :: rest)) ;;
      updateParticles (updated ++ [particle']) rest gBest
  end.

(** The body of the iteration loop, on the locals [gBest] and [uBest]. *)
Definition iteration (count : Z) (best : Particle * Particle) : M (Particle * Particle) :=
  let (gBest, uBest) := best in
  modifyThis (fun t => set_inertia (fmul (inertia t) (inertialDiscount t)) t) ;;
  t <- getThis ;;
  updateParticles [] (swarm t) gBest ;;
  gBest <- getGlobalBest ;;
  t <- getThis ;;
  better <- liftOutcome (Comparator_prefers (comparator t) (fitness gBest) (fitness uBest)) ;;
  let uBest := if better then gBest else uBest in
  emit (EvHandleParticle uBest count) ;;
  extern (handleParticle uBest count) ;;
  ret (gBest, uBest).

(** The largest [int]. *)
Definition INT_MAX : Z := 2147483647.

(** [count++] on an [int]: incrementing [INT_MAX] is a signed overflow,
    which is undefined behaviour. *)
Definition increment (count : Z) : M Z :=
  if count <? INT_MAX then ret (count + 1) else undefined.

(** [for (int count = 1; count <= this->maxIterations; count++)]: [n] more
    passes, for [count], [count + 1], ... Each pass is the body followed by
    [count++]; the condition holds before each of the first [maxIterations]
    passes and fails after the last one, unless the increment of the last
    pass overflows: with [maxIterations = INT_MAX] the condition can never
    fail. *)
Fixpoint iterations (n : nat) (count : Z) (best : Particle * Particle)
  : M (Particle * Particle) :=
  match n with
  | O => ret best
  | S n' =>
      best' <- iteration count best ;;
      count' <- increment count ;;
      iterations n' count' best'
  end.

(** The initial setup, up to the first selection of the global best. *)
Definition initialSetup (d : ProblemData) : M Particle :=
  emit (EvOptimize d) ;;
  modifyThis (set_data d) ;;
  modifyThis (fun t => set_comparator (setType (objType d) (comparator t)) t) ;;
  initSwarm ;;
  getGlobalBest.

Definition optimize (d : ProblemData) : M ProblemResults :=
  gBest <- initialSetup d ;;
  let uBest := gBest in
  modifyThis (fun t => set_inertia (initialInertia t) t) ;;
  begin <- externR clock ;;
  t <- getThis ;;
  best <- iterations (Z.to_nat (maxIterations t)) 1 (gBest, uBest) ;;
  let uBest := snd best in
  now <- externR clock ;;
  t <- getThis ;;
  ret (mkProblemResults
         (fdiv (float_of_int (now - begin)) (float_of_int CLOCKS_PER_SEC))
         (fitness uBest)
         (position uBest)
         (Particle_getCustomerAssignments t uBest)
         (type d)
         (objType d)).

(** *** [NDPSO::searchParameters] *)

(** [for (int i = 0; i < 10; i++)], on the local counter [done]. *)
Fixpoint trials (n : nat) (d : ProblemData) (done : Z) : M Z :=
  match n with
  | O => ret done
  | S n' =>
      t <- getThis ;;
      emit (EvHandleAlgorithm t) ;;
      extern (handleAlgorithm t (name d) (type d) (objType d)) ;;
      results <- optimize d ;;
      emit (EvHandleResults results) ;;
      extern (handleResults results) ;;
      trials n' d (done + 1)
  end.

(** [for (float c = 0.1; c <= 0.9; c += 0.2)]. The literals are [double]s:
    the initial value is converted to [float], the comparison promotes [c]
    to [double], and the increment is computed in [double] and converted
    back. *)
Definition sweep_start : float := float_lit 1 10.

Definition sweep_cond (c : float) : bool :=
  dleb (double_of_float c) (double_lit 9 10).

Definition sweep_step (c : float) : float :=
  float_of_double (dadd (double_of_float c) (double_lit 2 10)).

Fixpoint for_float (fuel : nat) (c : float) (body : float -> Z -> M Z) (done : Z) : M Z :=
  match fuel with
  | O => outOfFuel
  | S fuel' =>
      if sweep_cond c then
        done' <- body c done ;;
        for_float fuel' (sweep_step c) body done'
      else ret done
  end.

Definition searchParameters (fuel : nat) (d : ProblemData) : M unit :=
  for_float fuel sweep_start (fun c1 done =>
    setInertia c1 ;;
    for_float fuel sweep_start (fun c2 done =>
      setCognitive c2 ;;
      for_float fuel sweep_start (fun c3 done =>
        setSocial c3 ;;
        done <- trials 10 d done ;;
        emit (EvDone done) ;;
        extern (cout_done done) ;;
        ret done) done) done) 0 ;;
  ret tt.

End Engine.

Arguments NDPSO Particle : clear implicits.
Arguments Collaborators Particle Ext : clear implicits.
Arguments Event Particle : clear implicits.
Arguments World Particle Ext : clear implicits.
Arguments M Particle Ext A : clear implicits.

(** ** A small concrete configuration

    A two-field particle, a random seed and a tick counter as external
    state, and arithmetic stand-ins for the strategies; MINIMIZE is 0 and
    MAXIMIZE is 1. It is used to run the model on concrete inputs. *)

Module Demo.

Record particle := mkParticle { pos : list Z; fit : Z }.

Definition sumZ (l : list Z) : Z := fold_right Z.add 0 l.

Definition assign (costs : list (list Z)) (facilities : list Z) (type : Z) : list Z :=
  map (fun f => f + type) facilities.

Definition objective (costs : list (list Z)) (assignment : list Z) (type : Z) : Z :=
  sumZ assignment + type.

Definition particle_new (numDimensions possibleFacs : Z) (t : NDPSO particle) (x : Z * Z)
  : particle * (Z * Z) :=
  let (seed, ticks) := x in
  let p := map (fun i => (seed + Z.of_nat i) mod (Z.max possibleFacs 1))
               (seq 0 (Z.to_nat numDimensions)) in
  (mkParticle p (objective (costs (data t)) (assign (costs (data t)) p (type (data t)))
                           (type (data t))),
   ((seed * 5 + 3) mod 17, ticks + 40)).

Definition particle_update (t : NDPSO particle) (gBest p : particle) (x : Z * Z)
  : particle * (Z * Z) :=
  let (seed, ticks) := x in
  let p' := if Z.even seed then pos gBest else map (fun x => x + 1) (pos p) in
  (mkParticle p' (objective (costs (data t)) (assign (costs (data t)) p' (type (data t)))
                            (type (data t))),
   ((seed * 5 + 3) mod 17, ticks + 40)).

Definition collab : Collaborators particle (Z * Z) := {|
  fitness := fit;
  position := pos;
  Particle_new := particle_new;
  Particle_update := particle_update;
  AssignmentStrategy_assign := assign;
  ObjectiveStrategy_calcObjective := objective;
  handleAlgorithm := fun _ _ _ _ x => x;
  handleParticle := fun _ _ x => x;
  handleResults := fun _ x => x;
  clock := fun x => (snd x, (fst x, snd x + 1));
  CLOCKS_PER_SEC := 1000000;
  cout_done := fun _ x => x;
  MINIMIZE := 0;
  MAXIMIZE := 1
|}.

Definition problem (objType : Z) : ProblemData :=
  mkProblemData "demo" [[1; 2; 3]; [3; 2; 1]] 2 3 0 objType.

(** An optimizer as its constructor leaves it, in a fresh world. *)
Definition optimizer (swarmSize maxIterations : Z) (objType : Z) : NDPSO particle :=
  NDPSO_new (problem objType) (mkComparator objType)
            (float_lit 5 10) (float_lit 5 10) (float_lit 9 10) (float_lit 9 10)
            swarmSize maxIterations.

Definition world (swarmSize maxIterations : Z) (objType : Z) : World particle (Z * Z) :=
  mkWorld (optimizer swarmSize maxIterations objType) (1, 0) [].

(** A world whose swarm is given, with ties in the fitness values. *)
Definition tied : list particle :=
  [mkParticle [0; 1] 5; mkParticle [1; 1] 3; mkParticle [1; 0] 3;
   mkParticle [0; 0] 5; mkParticle [1; 2] 4].

Definition worldWith (s : list particle) (objType : Z) : World particle (Z * Z) :=
  mkWorld (set_swarm s (optimizer 5 2 objType)) (1, 0) [].

(** The first global best of a run and the world it is selected in. *)
Definition firstBest (swarmSize maxIterations objType : Z) : particle :=
  match fst (initialSetup (collab := collab) (problem objType)
                          (world swarmSize maxIterations objType)) with
  | Returned g => g
  | _ => mkParticle [] 0
  end.

Definition afterSetup (swarmSize maxIterations objType : Z) : World particle (Z * Z) :=
  snd (initialSetup (collab := collab) (problem objType)
                    (world swarmSize maxIterations objType)).


End Demo.

(** ** Reading the log *)

Section Views.

Context {Particle : Type}.

(** What the iteration loop shows to the particles and to the listener. *)
Inductive LoopStep : Type :=
| UpdateUnder (inertia : float)
| EndOfIteration (count : Z).

Definition loopStep (e : Event Particle) : list LoopStep :=
  match e with
  | EvParticleUpdate t _ => [UpdateUnder (inertia t)]
  | EvHandleParticle _ count => [EndOfIteration count]
  | _ => []
  end.

Definition loopTrace (evs : list (Event Particle)) : list LoopStep :=
  flat_map loopStep evs.

(** What the sweep does to the optimizer. *)
Inductive SweepStep : Type :=
| SetInertia (c : float)
| SetCognitive (c : float)
| SetSocial (c : float)
| Trial.

Definition sweepStep (e : Event Particle) : list SweepStep :=
  match e with
  | EvSetInertia c => [SetInertia c]
  | EvSetCognitive c => [SetCognitive c]
  | EvSetSocial c => [SetSocial c]
  | EvOptimize _ => [Trial]
  | _ => []
  end.

Definition sweepTrace (evs : list (Event Particle)) : list SweepStep :=
  flat_map sweepStep evs.

End Views.

(** The coefficient triple in force at each trial of a sweep, in order. A
    trial before all three coefficients have been set is not counted. *)
Fixpoint trialConfigs (i c s : option float) (steps : list SweepStep)
  : list (float * float * float) :=
  match steps with
  | [] => []
  | SetInertia x :: rest => trialConfigs (Some x) c s rest
  | SetCognitive x :: rest => trialConfigs i (Some x) s rest
  | SetSocial x :: rest => trialConfigs i c (Some x) rest
  | Trial :: rest =>
      match i, c, s with
      | Some a, Some b, Some d => (a, b, d) :: trialConfigs i c s rest
      | _, _, _ => trialConfigs i c s rest
      end
  end.

Definition isTrial (s : SweepStep) : bool :=
  match s with Trial => true | _ => false end.

(** The grid {0.1, 0.3, 0.5, 0.7, 0.9} as [float]s, and its cube in
    (inertia, cognitive, social) order. *)
Definition grid : list float := map (fun k => float_lit k 10) [1; 3; 5; 7; 9].

Definition grid3 : list (float * float * float) :=
  flat_map (fun a => flat_map (fun b => map (fun c => (a, b, c)) grid) grid) grid.

(** The sweep as the specification describes it. *)
Definition expectedSweep : list SweepStep :=
  flat_map (fun c1 =>
    SetInertia c1 :: flat_map (fun c2 =>
      SetCognitive c2 :: flat_map (fun c3 =>
        SetSocial c3 :: repeat Trial 10) grid) grid) grid.

(** [x * d^k] as the loop computes it: [k] binary32 multiplications. *)
Fixpoint discounted (k : nat) (x d : float) : float :=
  match k with
  | O => x
  | S k' => fmul (discounted k' x d) d
  end.

(** The loop [for (float c = 0.1; c <= 0.9; c += 0.2)], entered with [c],
    runs its body on the values [cs], in this order, and then stops. *)
Fixpoint visits (cs : list float) (c : float) : Prop :=
  match cs with
  | [] => sweep_cond c = false
  | c' :: rest => c = c' /\ sweep_cond c = true /\ visits rest (sweep_step c)
  end.

Definition float_eq_dec (x y : float) : {x = y} + {x <> y}.
Proof.
  unfold float. decide equality;
    try apply Bool.bool_dec; try apply Pos.eq_dec; apply Z.eq_dec.
Defined.

Definition triple_eq_dec (x y : float * float * float) : {x = y} + {x <> y}.
Proof. repeat decide equality; apply float_eq_dec. Defined.

(** ** Notions used by the statements *)

Section Notions.

Context {Particle : Type} {Ext : Type} {collab : Collaborators Particle Ext}.

(** [p], at index [i], is the first particle of minimal fitness in [l]. *)
Definition firstMinimalAt (l : list Particle) (i : nat) (p : Particle) : Prop :=
  nth_error l i = Some p /\
  (forall q, In q l -> fitness p <= fitness q) /\
  (forall j q, (j < i)%nat -> nth_error l j = Some q -> fitness p < fitness q).

(** [p], at index [i], is the first particle of maximal fitness in [l]. *)
Definition firstMaximalAt (l : list Particle) (i : nat) (p : Particle) : Prop :=
  nth_error l i = Some p /\
  (forall q, In q l -> fitness q <= fitness p) /\
  (forall j q, (j < i)%nat -> nth_error l j = Some q -> fitness q < fitness p).

(** The string thrown by [getGlobalBest]. *)
Definition unrecognized : string :=
  "NDPSO::getGlobalBest(): unrecognized this->data.objType!".

(** [p] came out of the constructor [Particle(numDimensions, possibleFacs, this)]. *)
Definition constructedWith (numDimensions possibleFacs : Z) (p : Particle) : Prop :=
  exists (t : NDPSO Particle) (x : Ext),
    p = fst (Particle_new numDimensions possibleFacs t x).

(** [calcObjective] as the specification words it: the objective strategy
    is handed the problem's [objType]. *)
Definition calcObjective_spec (t : NDPSO Particle) (facilities : list Z) : Z :=
  ObjectiveStrategy_calcObjective
    (costs (data t))
    (AssignmentStrategy_assign (costs (data t)) facilities (type (data t)))
    (objType (data t)).

(** The direction is one [getGlobalBest] has a case for. *)
Definition recognized (direction : Z) : Prop :=
  direction = MINIMIZE \/ direction = MAXIMIZE.

(** The optimizer is set up for the loop: a swarm to select from, and the
    comparator configured with the direction of the problem. *)
Definition Ready (w : World Particle Ext) : Prop :=
  swarm (this w) <> [] /\
  recognized (objType (data (this w))) /\
  cmpType (comparator (this w)) = objType (data (this w)).

(** The fitness of the all-time best reported to the listener at the end of
    each iteration, in order. *)
Definition bestHistory (evs : list (Event Particle)) : list Z :=
  flat_map (fun e => match e with
                     | EvHandleParticle uBest _ => [fitness uBest]
                     | _ => []
                     end) evs.

(** Under comparator [c], [new] is preferred or equal to [old]: the
    comparator answers, and does not prefer [old]. *)
Definition neverWorse (c : Comparator) (old new : Z) : Prop :=
  Comparator_prefers c old new = Returned false.

(** The steps of iteration [count], of a swarm of [n] particles, when the
    particles are updated under inertia [x]. *)
Definition iterationSteps (n : nat) (x : float) (count : Z) : list LoopStep :=
  repeat (UpdateUnder x) n ++ [EndOfIteration count].

(** The all-time best particles handed to the listener at the end of each
    iteration, in order. *)
Definition reported (evs : list (Event Particle)) : list Particle :=
  flat_map (fun e => match e with
                     | EvHandleParticle uBest _ => [uBest]
                     | _ => []
                     end) evs.

(** The optimizer can run a trial to its end: there is a swarm to build,
    and the iteration counter stops before it would overflow. *)
Definition Runnable (w : World Particle Ext) : Prop :=
  0 < swarmSize (this w) /\ maxIterations (this w) < INT_MAX.

(** A loop body keeps the optimizer runnable and contributes the steps
    [T c] to the sweep. *)
Definition bodyDoes (body : float -> Z -> M Particle Ext Z) (T : float -> list SweepStep) : Prop :=
  forall c done (w : World Particle Ext),
    Runnable w ->
    exists done' w' evs,
      body c done w = (Returned done', w') /\
      Runnable w' /\
      log w' = log w ++ evs /\
      sweepTrace evs = T c.

End Notions.

(** ** The constructors and the logging of the parameters *)

(** The defaults [SWARM_SIZE], [SOCIAL], [COGNITIVE], [INERTIA],
    [INERTIAL_DISCOUNT] and [MAX_ITERATIONS] of [NDPSO.h], which is not part
    of the sources: a parameter of the two constructors that use them. *)
Record Defaults := mkDefaults {
  SWARM_SIZE : Z;
  SOCIAL : float;
  COGNITIVE : float;
  INERTIA : float;
  INERTIAL_DISCOUNT : float;
  MAX_ITERATIONS : Z
}.

Section Construction.

Context {Particle : Type}.

(** [NDPSO::NDPSO()]. As for [NDPSO_new], the members the constructor does
    not touch are arguments, and the swarm starts empty. The constructor
    installs no listener. *)
Definition NDPSO_default (k : Defaults) (d0 : ProblemData) (c0 : Comparator)
  : NDPSO Particle :=
  mkNDPSO (SWARM_SIZE k) (SOCIAL k) (COGNITIVE k) (INERTIA k) (INERTIA k)
          (INERTIAL_DISCOUNT k) (MAX_ITERATIONS k) d0 c0 [].

(** [NDPSO::NDPSO(int maxIterations)]. *)
Definition NDPSO_iterations (k : Defaults) (d0 : ProblemData) (c0 : Comparator)
           (maxIterations : Z) : NDPSO Particle :=
  mkNDPSO (SWARM_SIZE k) (SOCIAL k) (COGNITIVE k) (INERTIA k) (INERTIA k)
          (INERTIAL_DISCOUNT k) maxIterations d0 c0 [].

(** [std::to_string], for a [float] and for an [int]. *)
Variable to_string_float : float -> string.
Variable to_string_int : Z -> string.

(** *** [NDPSO::getJSONParameters] *)
Definition getJSONParameters (t : NDPSO Particle) : string :=
  let json := "{"%string in
  let json := (json ++ ("inertia: " ++ to_string_float (initialInertia t)))%string in
  let json := (json ++ (", cognitive: " ++ to_string_float (cognitive t)))%string in
  let json := (json ++ (", social: " ++ to_string_float (social t)))%string in
  let json := (json ++ (", inertialDiscount: "
                          ++ to_string_float (inertialDiscount t)))%string in
  let json := (json ++ (", swarmSize: " ++ to_string_int (swarmSize t)))%string in
  let json := (json ++ (", maxIterations: " ++ to_string_int (maxIterations t)))%string in
  let json := (json ++ "}")%string in
  json.

End Construction.

(** ** More ways to read the log *)

Section MoreViews.

Context {Particle : Type}.

(** What the sweep tells the listener and prints. *)
Inductive ProtocolStep : Type :=
| Announce
| Deliver
| Progress (done : Z).

Definition protocolStep (e : Event Particle) : list ProtocolStep :=
  match e with
  | EvHandleAlgorithm _ => [Announce]
  | EvHandleResults _ => [Deliver]
  | EvDone done => [Progress done]
  | _ => []
  end.

Definition protocolTrace (evs : list (Event Particle)) : list ProtocolStep :=
  flat_map protocolStep evs.

(** The trials of the sweep, with the calls of [optimize] in their place
    between the two calls of the listener. *)
Inductive TrialStep : Type :=
| Announced
| Optimized (d : ProblemData)
| Delivered
| Printed (done : Z).

Definition trialStep (e : Event Particle) : list TrialStep :=
  match e with
  | EvHandleAlgorithm _ => [Announced]
  | EvOptimize d => [Optimized d]
  | EvHandleResults _ => [Delivered]
  | EvDone done => [Printed done]
  | _ => []
  end.

Definition trialTrace (evs : list (Event Particle)) : list TrialStep :=
  flat_map trialStep evs.

(** The arguments of the constructions of particles, in order. *)
Definition constructions (evs : list (Event Particle)) : list (Z * Z) :=
  flat_map (fun e => match e with
                     | EvParticleNew numDimensions possibleFacs =>
                         [(numDimensions, possibleFacs)]
                     | _ => []
                     end) evs.

(** The events of the iteration loop: updates and reports. *)
Definition isLoopEvent (e : Event Particle) : bool :=
  match e with
  | EvParticleUpdate _ _ | EvHandleParticle _ _ => true
  | _ => false
  end.

End MoreViews.

(** What a loop over the values [cs] contributes, when each pass
    contributes [T c done] and completes [step] trials. *)
Fixpoint loopView {V} (T : float -> Z -> list V) (step : Z) (cs : list float) (done : Z)
  : list V :=
  match cs with
  | [] => []
  | c :: rest => T c done ++ loopView T step rest (done + step)
  end.

(** The trials of one grid point on problem [d] and the progress line
    that follows them, when [done] trials were completed before: each trial
    announces the algorithm, optimizes, and delivers the results. *)
Definition trialBlock (d : ProblemData) (done : Z) : list TrialStep :=
  concat (repeat [Announced; Optimized d; Delivered] 10) ++ [Printed (done + 10)].

(** The whole sweep, as the listener and the terminal see it: 125 blocks of
    ten trials, the k-th followed by the progress count [10 * k]. *)
Definition expectedTrials (d : ProblemData) : list TrialStep :=
  flat_map (fun k => trialBlock d (10 * (Z.of_nat k - 1))) (seq 1 125).

Section MoreNotions.

Context {Particle : Type} {Ext : Type} {collab : Collaborators Particle Ext}.

(** A loop body, run on a runnable optimizer, completes [step] trials,
    keeps the optimizer runnable and shows [T c done] under [view]. *)
Definition bodyYields {V} (view : Event Particle -> list V)
           (body : float -> Z -> M Particle Ext Z) (step : Z)
           (T : float -> Z -> list V) : Prop :=
  forall c done (w : World Particle Ext),
    Runnable w ->
    exists w' evs,
      body c done w = (Returned (done + step), w') /\
      Runnable w' /\
      log w' = log w ++ evs /\
      flat_map view evs = T c done.

(** The all-time best is at least as good as every particle of the swarm. *)
Definition bestOfSwarm_inv (w : World Particle Ext) (u : Particle) : Prop :=
  (objType (data (this w)) = MINIMIZE ->
   forall p, In p (swarm (this w)) -> fitness u <= fitness p) /\
  (objType (data (this w)) = MAXIMIZE ->
   forall p, In p (swarm (this w)) -> fitness p <= fitness u).

(** Two optimizers agree on the six parameters [getJSONParameters] prints. *)
Definition sameParameters (t t' : NDPSO Particle) : Prop :=
  swarmSize t' = swarmSize t /\
  social t' = social t /\
  cognitive t' = cognitive t /\
  initialInertia t' = initialInertia t /\
  inertialDiscount t' = inertialDiscount t /\
  maxIterations t' = maxIterations t.

(** What a call of [optimize] on problem [d] has made of the optimizer:
    the parameters are as they were, the problem is bound, the comparator
    is configured with its direction, and the swarm has [max swarmSize 0]
    particles. *)
Definition leaves (d : ProblemData) (w w' : World Particle Ext) : Prop :=
  sameParameters (this w) (this w') /\
  data (this w') = d /\
  cmpType (comparator (this w')) = objType d /\
  Z.of_nat (length (swarm (this w'))) = Z.max (swarmSize (this w)) 0.

End MoreNotions.

(** More of the concrete configuration. *)
Module DemoMore.

(** A world in which an iteration can run: the one the setup of a run of
    three particles leaves. *)
Definition ready : World Demo.particle (Z * Z) := Demo.afterSetup 3 2 0.

(** A problem of type 2, for which the assignment of the configuration is
    not the identity: it shifts every facility by the type. *)
Definition typed : ProblemData :=
  mkProblemData "typed" [[1; 2; 3]; [3; 2; 1]] 2 3 2 0.

(** The results of a run on it. *)
Definition typedResults : ProblemResults :=
  match fst (optimize (collab := Demo.collab) typed (Demo.world 3 2 0)) with
  | Returned r => r
  | _ => mkProblemResults (float_of_int 0) 0 [] [] 0 0
  end.

Definition typedAfter : World Demo.particle (Z * Z) :=
  snd (optimize (collab := Demo.collab) typed (Demo.world 3 2 0)).


End DemoMore.

(** ** Properties *)

Section Properties.

Context {Particle : Type} {Ext : Type} {collab : Collaborators Particle Ext}.

Local Abbreviation World := (World Particle Ext).
Local Abbreviation M := (M Particle Ext).

(** *** The monad *)

Lemma bind_returned {A B} (m : M A) (k : A -> M B) w a w' :
  m w = (Returned a, w') -> bind m k w = k a w'.
Proof. intros H. unfold bind. rewrite H. reflexivity. Qed.

Lemma bind_inv {A B} (m : M A) (k : A -> M B) w b w2 :
  bind m k w = (Returned b, w2) ->
  exists a w1, m w = (Returned a, w1) /\ k a w1 = (Returned b, w2).
Proof.
  unfold bind. destruct (m w) as [[a| | |] w1]; intros H; try discriminate.
  exists a, w1. split; [reflexivity | exact H].
Qed.

Lemma bind_not_returned {A B} (m : M A) (k : A -> M B) w :
  isReturned (fst (m w)) = false ->
  isReturned (fst (bind m k w)) = false /\ snd (bind m k w) = snd (m w).
Proof.
  unfold bind. destruct (m w) as [[a| | |] w1]; simpl; intros H;
    try discriminate; split; reflexivity.
Qed.

Lemma world_eta (w : World) : mkWorld (this w) (ext w) (log w) = w.
Proof. destruct w. reflexivity. Qed.

Lemma set_swarm_same (t : NDPSO Particle) : set_swarm (swarm t) t = t.
Proof. destruct t. reflexivity. Qed.

Lemma set_swarm_twice s s' (t : NDPSO Particle) :
  set_swarm s (set_swarm s' t) = set_swarm s t.
Proof. reflexivity. Qed.

(** *** Selection of the global best *)

Lemma nth_error_snoc_old (pre : list Particle) x j q :
  nth_error pre j = Some q -> nth_error (pre ++ [x]) j = Some q.
Proof.
  intros H. rewrite nth_error_app1; [exact H |].
  apply nth_error_Some. congruence.
Qed.

Lemma nth_error_snoc_before (pre : list Particle) x j :
  (j < length pre)%nat -> nth_error (pre ++ [x]) j = nth_error pre j.
Proof. intros H. apply nth_error_app1. exact H. Qed.

Lemma nth_error_snoc_new (pre : list Particle) x :
  nth_error (pre ++ [x]) (length pre) = Some x.
Proof. rewrite nth_error_app2, Nat.sub_diag; [reflexivity | lia]. Qed.

Lemma min_element_from_first rest : forall pre s sv,
  firstMinimalAt pre s sv ->
  exists p,
    firstMinimalAt (pre ++ rest)
                   (min_element_from minFitness rest (length pre) s sv) p.
Proof.
  induction rest as [|x rest IH]; intros pre s sv Hm.
  - simpl. rewrite app_nil_r. exists sv. exact Hm.
  - destruct Hm as (Hnth & Hall & Hbefore).
    assert (Hs : (s < length pre)%nat) by (apply nth_error_Some; congruence).
    simpl. unfold minFitness at 1.
    replace (pre ++ x :: rest) with ((pre ++ [x]) ++ rest)
      by (rewrite <- app_assoc; reflexivity).
    replace (S (length pre)) with (length (pre ++ [x]))
      by (rewrite length_app; simpl; lia).
    destruct (Z.ltb_spec (fitness x) (fitness sv)) as [Hlt | Hge].
    + replace (length pre) with (length pre) at 2 by reflexivity.
      apply IH. repeat split.
      * apply nth_error_snoc_new.
      * intros q Hq. apply in_app_or in Hq. destruct Hq as [Hq | [Hq | []]].
        -- specialize (Hall q Hq). lia.
        -- subst q. lia.
      * intros j q Hj Hq. rewrite nth_error_snoc_before in Hq by exact Hj.
        apply nth_error_In in Hq. specialize (Hall q Hq). lia.
    + apply IH. repeat split.
      * apply nth_error_snoc_old. exact Hnth.
      * intros q Hq. apply in_app_or in Hq. destruct Hq as [Hq | [Hq | []]].
        -- apply Hall. exact Hq.
        -- subst q. lia.
      * intros j q Hj Hq. rewrite nth_error_snoc_before in Hq by lia.
        apply (Hbefore j q Hj Hq).
Qed.

Lemma max_element_from_first rest : forall pre s sv,
  firstMaximalAt pre s sv ->
  exists p,
    firstMaximalAt (pre ++ rest)
                   (max_element_from minFitness rest (length pre) s sv) p.
Proof.
  induction rest as [|x rest IH]; intros pre s sv Hm.
  - simpl. rewrite app_nil_r. exists sv. exact Hm.
  - destruct Hm as (Hnth & Hall & Hbefore).
    assert (Hs : (s < length pre)%nat) by (apply nth_error_Some; congruence).
    simpl. unfold minFitness at 1.
    replace (pre ++ x :: rest) with ((pre ++ [x]) ++ rest)
      by (rewrite <- app_assoc; reflexivity).
    replace (S (length pre)) with (length (pre ++ [x]))
      by (rewrite length_app; simpl; lia).
    destruct (Z.ltb_spec (fitness sv) (fitness x)) as [Hlt | Hge].
    + apply IH. repeat split.
      * apply nth_error_snoc_new.
      * intros q Hq. apply in_app_or in Hq. destruct Hq as [Hq | [Hq | []]].
        -- specialize (Hall q Hq). lia.
        -- subst q. lia.
      * intros j q Hj Hq. rewrite nth_error_snoc_before in Hq by exact Hj.
        apply nth_error_In in Hq. specialize (Hall q Hq). lia.
    + apply IH. repeat split.
      * apply nth_error_snoc_old. exact Hnth.
      * intros q Hq. apply in_app_or in Hq. destruct Hq as [Hq | [Hq | []]].
        -- apply Hall. exact Hq.
        -- subst q. lia.
      * intros j q Hj Hq. rewrite nth_error_snoc_before in Hq by lia.
        apply (Hbefore j q Hj Hq).
Qed.

Lemma firstMinimalAt_singleton x : firstMinimalAt [x] 0 x.
Proof.
  repeat split.
  - intros q [Hq | []]. subst q. lia.
  - intros j q Hj. lia.
Qed.

Lemma firstMaximalAt_singleton x : firstMaximalAt [x] 0 x.
Proof.
  repeat split.
  - intros q [Hq | []]. subst q. lia.
  - intros j q Hj. lia.
Qed.

Lemma min_element_first (l : list Particle) :
  l <> [] -> exists p, firstMinimalAt l (min_element minFitness l) p.
Proof.
  destruct l as [|x rest]; [congruence | intros _].
  apply (min_element_from_first rest [x] O x), firstMinimalAt_singleton.
Qed.

Lemma max_element_first (l : list Particle) :
  l <> [] -> exists p, firstMaximalAt l (max_element minFitness l) p.
Proof.
  destruct l as [|x rest]; [congruence | intros _].
  apply (max_element_from_first rest [x] O x), firstMaximalAt_singleton.
Qed.

Lemma getGlobalBest_MINIMIZE (w : World) :
  objType (data (this w)) = MINIMIZE ->
  getGlobalBest w = deref (swarm (this w)) (min_element minFitness (swarm (this w))) w.
Proof.
  intros H. unfold getGlobalBest, bind, getThis.
  rewrite H, Z.eqb_refl. reflexivity.
Qed.

Lemma getGlobalBest_MAXIMIZE (w : World) :
  MINIMIZE <> MAXIMIZE ->
  objType (data (this w)) = MAXIMIZE ->
  getGlobalBest w = deref (swarm (this w)) (max_element minFitness (swarm (this w))) w.
Proof.
  intros Hd H. unfold getGlobalBest, bind, getThis.
  rewrite H, Z.eqb_refl.
  destruct (Z.eqb_spec MAXIMIZE MINIMIZE) as [E | _]; [congruence | reflexivity].
Qed.

Lemma getGlobalBest_unrecognized (w : World) :
  objType (data (this w)) <> MINIMIZE ->
  objType (data (this w)) <> MAXIMIZE ->
  getGlobalBest w = (Thrown unrecognized, w).
Proof.
  intros H1 H2. unfold getGlobalBest, bind, getThis.
  destruct (Z.eqb_spec (objType (data (this w))) MINIMIZE); [contradiction |].
  destruct (Z.eqb_spec (objType (data (this w))) MAXIMIZE); [contradiction |].
  reflexivity.
Qed.

(** Selecting from an empty swarm never returns. *)
Lemma getGlobalBest_nil_not_returned (w : World) :
  swarm (this w) = [] -> isReturned (fst (getGlobalBest w)) = false.
Proof.
  intros Hnil. unfold getGlobalBest, bind, getThis. rewrite Hnil.
  destruct (objType (data (this w)) =? MINIMIZE); [reflexivity |].
  destruct (objType (data (this w)) =? MAXIMIZE); reflexivity.
Qed.

(** Whatever it does, [getGlobalBest] leaves the world as it is. *)
Lemma getGlobalBest_world (w : World) : snd (getGlobalBest w) = w.
Proof.
  unfold getGlobalBest, bind, getThis, deref, ret, undefined, throw.
  destruct (objType (data (this w)) =? MINIMIZE).
  - destruct (nth_error _ _); reflexivity.
  - destruct (objType (data (this w)) =? MAXIMIZE).
    + destruct (nth_error _ _); reflexivity.
    + reflexivity.
Qed.

(** On a non-empty swarm with a recognized direction a particle of the
    swarm is returned. *)
Lemma getGlobalBest_returns (w : World) :
  swarm (this w) <> [] ->
  objType (data (this w)) = MINIMIZE \/ objType (data (this w)) = MAXIMIZE ->
  exists p, getGlobalBest w = (Returned p, w) /\ In p (swarm (this w)).
Proof.
  intros Hne Hdir.
  destruct (Z.eq_dec (objType (data (this w))) MINIMIZE) as [Hmin | Hnmin].
  - rewrite (getGlobalBest_MINIMIZE w Hmin).
    destruct (min_element_first _ Hne) as (p & Hnth & _).
    exists p. unfold deref. rewrite Hnth. split; [reflexivity |].
    eapply nth_error_In; eassumption.
  - destruct Hdir as [Hmin | Hmax]; [contradiction |].
    rewrite (getGlobalBest_MAXIMIZE w); [| congruence | exact Hmax].
    destruct (max_element_first _ Hne) as (p & Hnth & _).
    exists p. unfold deref. rewrite Hnth. split; [reflexivity |].
    eapply nth_error_In; eassumption.
Qed.

(** *** [calcObjective] *)

(** C5 (as the code has it). For every facilities vector, [calcObjective]
    returns the objective strategy's score of the assignment derived by the
    assignment strategy, both strategies being called with the problem's
    [type] (the [objType] is not consulted), and the call changes nothing. *)
Theorem calcObjective_composes (w : World) (facilities : list Z) :
  calcObjective facilities w =
  (Returned
     (ObjectiveStrategy_calcObjective
        (costs (data (this w)))
        (AssignmentStrategy_assign (costs (data (this w))) facilities
                                   (type (data (this w))))
        (type (data (this w)))),
   w).
Proof. reflexivity. Qed.

(** *** [initSwarm] *)

Lemma initSwarm_loop_spec n nd pf : forall w : World,
  exists ps x',
    initSwarm_loop n nd pf w =
    (Returned tt,
     mkWorld (set_swarm (swarm (this w) ++ ps) (this w)) x'
             (log w ++ repeat (EvParticleNew nd pf) n)) /\
    length ps = n /\
    Forall (constructedWith nd pf) ps.
Proof.
  induction n as [|n IH]; intros w.
  - exists [], (ext w). simpl. rewrite !app_nil_r, set_swarm_same, world_eta.
    repeat split. constructor.
  - simpl. unfold bind at 1, getThis. unfold bind at 1, emit.
    unfold bind at 1, externR. simpl.
    destruct (Particle_new nd pf (this w) (ext w)) as [p x1] eqn:Hnew.
    unfold bind at 1, modifyThis. simpl.
    destruct (IH (mkWorld (set_swarm (swarm (this w) ++ [p]) (this w)) x1
                          (log w ++ [EvParticleNew nd pf])))
      as (ps & x' & Hrun & Hlen & Hall).
    exists (p :: ps), x'. rewrite Hrun. simpl.
    rewrite <- !app_assoc. simpl. repeat split.
    + lia.
    + constructor; [| exact Hall].
      exists (this w), (ext w). rewrite Hnew. reflexivity.
Qed.

Lemma initSwarm_spec (w : World) :
  exists ps x',
    initSwarm w =
    (Returned tt,
     mkWorld (set_swarm ps (this w)) x'
             (log w ++ repeat (EvParticleNew (numFacilities (data (this w)))
                                             (numCustomers (data (this w))))
                              (Z.to_nat (swarmSize (this w))))) /\
    length ps = Z.to_nat (swarmSize (this w)) /\
    Forall (constructedWith (numFacilities (data (this w)))
                            (numCustomers (data (this w)))) ps.
Proof.
  unfold initSwarm. unfold bind at 1, getThis. unfold bind at 1.
  destruct (0 <? Z.of_nat (length (swarm (this w)))) eqn:Hsz.
  - unfold modifyThis. unfold bind at 1. simpl.
    destruct (initSwarm_loop_spec
                (Z.to_nat (swarmSize (this w)))
                (numFacilities (data (this w))) (numCustomers (data (this w)))
                (mkWorld (set_swarm [] (this w)) (ext w) (log w)))
      as (ps & x' & Hrun & Hlen & Hall).
    exists ps, x'. simpl in Hrun. rewrite Hrun. repeat split; assumption.
  - unfold ret. unfold bind at 1. simpl.
    assert (Hnil : swarm (this w) = []).
    { destruct (swarm (this w)); [reflexivity |].
      apply Z.ltb_ge in Hsz. simpl length in Hsz. lia. }
    destruct (initSwarm_loop_spec
                (Z.to_nat (swarmSize (this w)))
                (numFacilities (data (this w))) (numCustomers (data (this w))) w)
      as (ps & x' & Hrun & Hlen & Hall).
    exists ps, x'. rewrite Hrun, Hnil. repeat split; assumption.
Qed.

(** C8 (as the code has it). After every call to [initSwarm], whatever the
    swarm held before, the swarm consists of exactly [max swarmSize 0]
    particles, each constructed with [numFacilities] dimensions and
    [numCustomers] values per dimension; nothing else in the optimizer
    changes. In particular the swarm has [swarmSize] particles whenever
    [swarmSize] is not negative. *)
Theorem initSwarm_swarm_size (w : World) :
  exists w',
    initSwarm w = (Returned tt, w') /\
    Z.of_nat (length (swarm (this w'))) = Z.max (swarmSize (this w)) 0 /\
    Forall (constructedWith (numFacilities (data (this w)))
                            (numCustomers (data (this w))))
           (swarm (this w')) /\
    log w' = log w ++ repeat (EvParticleNew (numFacilities (data (this w)))
                                            (numCustomers (data (this w))))
                             (length (swarm (this w'))) /\
    this w' = set_swarm (swarm (this w')) (this w).
Proof.
  destruct (initSwarm_spec w) as (ps & x' & Hrun & Hlen & Hall).
  eexists. split; [exact Hrun |]. simpl. rewrite Hlen.
  repeat split; try assumption. lia.
Qed.

(** *** [getGlobalBest] *)

(** C10. On a non-empty swarm, [getGlobalBest] returns (a copy of) the
    first particle, in swarm order, of minimal fitness under MINIMIZE and
    the first particle of maximal fitness under MAXIMIZE: every particle
    before it is strictly worse, none is better. *)
Theorem getGlobalBest_first_extremal (w : World) :
  swarm (this w) <> [] ->
  MINIMIZE <> MAXIMIZE ->
  (objType (data (this w)) = MINIMIZE ->
   exists i p, getGlobalBest w = (Returned p, w) /\
               firstMinimalAt (swarm (this w)) i p) /\
  (objType (data (this w)) = MAXIMIZE ->
   exists i p, getGlobalBest w = (Returned p, w) /\
               firstMaximalAt (swarm (this w)) i p).
Proof.
  intros Hne Hd. split; intros Hdir.
  - rewrite (getGlobalBest_MINIMIZE w Hdir).
    destruct (min_element_first _ Hne) as (p & Hp).
    exists (min_element minFitness (swarm (this w))), p.
    split; [| exact Hp]. unfold deref. destruct Hp as (Hnth & _).
    rewrite Hnth. reflexivity.
  - rewrite (getGlobalBest_MAXIMIZE w Hd Hdir).
    destruct (max_element_first _ Hne) as (p & Hp).
    exists (max_element minFitness (swarm (this w))), p.
    split; [| exact Hp]. unfold deref. destruct Hp as (Hnth & _).
    rewrite Hnth. reflexivity.
Qed.



(** *** The iteration loop *)

Lemma loopTrace_app (a b : list (Event Particle)) :
  loopTrace (a ++ b) = loopTrace a ++ loopTrace b.
Proof. apply flat_map_app. Qed.

Lemma sweepTrace_app (a b : list (Event Particle)) :
  sweepTrace (a ++ b) = sweepTrace a ++ sweepTrace b.
Proof. apply flat_map_app. Qed.

Lemma loopTrace_updates (t0 : NDPSO Particle) g calls :
  Forall (fun t => exists s, t = set_swarm s t0) calls ->
  loopTrace (map (fun t => EvParticleUpdate t g) calls) =
  repeat (UpdateUnder (inertia t0)) (length calls).
Proof.
  induction 1 as [|t calls (s & Ht) _ IH]; [reflexivity |].
  simpl. rewrite Ht at 1. simpl. f_equal. exact IH.
Qed.

Lemma sweepTrace_updates g (calls : list (NDPSO Particle)) :
  sweepTrace (map (fun t => EvParticleUpdate t g) calls) = [].
Proof. induction calls; [reflexivity | exact IHcalls]. Qed.

Lemma bestHistory_app (a b : list (Event Particle)) :
  bestHistory (a ++ b) = bestHistory a ++ bestHistory b.
Proof. apply flat_map_app. Qed.

Lemma bestHistory_updates g (calls : list (NDPSO Particle)) :
  bestHistory (map (fun t => EvParticleUpdate t g) calls) = [].
Proof. induction calls; [reflexivity | exact IHcalls]. Qed.

Lemma reported_app (a b : list (Event Particle)) :
  reported (a ++ b) = reported a ++ reported b.
Proof. apply flat_map_app. Qed.

Lemma reported_updates g (calls : list (NDPSO Particle)) :
  reported (map (fun t => EvParticleUpdate t g) calls) = [].
Proof. induction calls as [|t calls IH]; [reflexivity | exact IH]. Qed.

Lemma bestHistory_reported (evs : list (Event Particle)) :
  bestHistory evs = map fitness (reported evs).
Proof.
  induction evs as [|e evs IH]; [reflexivity |].
  unfold bestHistory, reported in *. simpl. rewrite map_app, IH.
  destruct e; reflexivity.
Qed.

Lemma last_cons {A} (b : A) l a : last (b :: l) a = last l b.
Proof.
  revert a b. induction l as [|c l IH]; intros a b; [reflexivity |].
  change (last (b :: c :: l) a) with (last (c :: l) a).
  rewrite (IH a c). symmetry. apply (IH b c).
Qed.


Lemma sweepTrace_news nd pf n :
  sweepTrace (repeat (@EvParticleNew Particle nd pf) n) = [].
Proof. induction n; [reflexivity | exact IHn]. Qed.

Lemma updateParticles_spec pending : forall updated gBest (w : World),
  swarm (this w) = updated ++ pending ->
  exists s' x' calls,
    updateParticles updated pending gBest w =
    (Returned tt,
     mkWorld (set_swarm s' (this w)) x'
             (log w ++ map (fun t => EvParticleUpdate t gBest) calls)) /\
    length s' = length (swarm (this w)) /\
    length calls = length pending /\
    Forall (fun t => exists s, t = set_swarm s (this w)) calls /\
    exists news,
      s' = updated ++ news /\
      Forall2 (fun old new =>
                 exists (t : NDPSO Particle) (x : Ext),
                   new = fst (Particle_update t gBest old x))
              pending news.
Proof.
  induction pending as [|particle rest IH]; intros updated gBest w Hsw.
  - exists (swarm (this w)), (ext w), []. simpl.
    rewrite app_nil_r, set_swarm_same, world_eta.
    split; [reflexivity |]. split; [reflexivity |]. split; [reflexivity |].
    split; [constructor |].
    exists []. split; [rewrite Hsw; reflexivity | constructor].
  - simpl. unfold bind at 1, getThis. unfold bind at 1, emit.
    unfold bind at 1, externR. simpl.
    destruct (Particle_update (this w) gBest particle (ext w)) as [p' x1] eqn:Hp'.
    unfold bind at 1, modifyThis. simpl.
    destruct (IH (updated ++ [p']) gBest
                 (mkWorld (set_swarm (updated ++ p' :: rest) (this w)) x1
                          (log w ++ [EvParticleUpdate (this w) gBest])))
      as (s' & x' & calls & Hrun & Hlen & Hcalls & Hall & news & Hnews & Heach).
    { simpl. rewrite <- app_assoc. reflexivity. }
    exists s', x', (this w :: calls). rewrite Hrun. simpl.
    rewrite <- app_assoc. simpl.
    split; [reflexivity |]. split; [| split; [| split]].
    + rewrite Hlen, Hsw. simpl. rewrite !length_app. reflexivity.
    + simpl. lia.
    + constructor.
      * exists (swarm (this w)). symmetry. apply set_swarm_same.
      * eapply Forall_impl; [| exact Hall].
        intros t (s & Ht). exists s. exact Ht.
    + exists (p' :: news). split.
      * rewrite Hnews, <- app_assoc. reflexivity.
      * constructor; [| exact Heach].
        exists (this w), (ext w). rewrite Hp'. reflexivity.
Qed.

Lemma Comparator_prefers_recognized (c : Comparator) (a b : Z) :
  recognized (cmpType c) ->
  exists better,
    Comparator_prefers c a b = Returned better /\
    Comparator_prefers c b (if better then a else b) = Returned false.
Proof.
  intros Hrec. unfold Comparator_prefers.
  destruct (Z.eqb_spec (cmpType c) MINIMIZE) as [Hmin | Hnmin].
  - exists (a <? b). split; [reflexivity |].
    destruct (Z.ltb_spec a b); f_equal; apply Z.ltb_ge; lia.
  - destruct Hrec as [Hmin | Hmax]; [contradiction |].
    rewrite Hmax, Z.eqb_refl. exists (a >? b). split; [reflexivity |].
    rewrite !Z.gtb_ltb. destruct (Z.ltb_spec b a); f_equal; apply Z.ltb_ge; lia.
Qed.

Lemma iteration_spec count g u (w : World) :
  Ready w ->
  exists g' u' s' x' evs,
    iteration count (g, u) w =
    (Returned (g', u'),
     mkWorld (set_swarm s' (set_inertia (fmul (inertia (this w))
                                              (inertialDiscount (this w)))
                                        (this w)))
             x' (log w ++ evs)) /\
    length s' = length (swarm (this w)) /\
    loopTrace evs =
      iterationSteps (length (swarm (this w)))
                     (fmul (inertia (this w)) (inertialDiscount (this w))) count /\
    sweepTrace evs = [] /\
    bestHistory evs = [fitness u'] /\
    neverWorse (comparator (this w)) (fitness u) (fitness u') /\
    reported evs = [u'].
Proof.
  intros (Hne & Hrec & Hcmp).
  set (t1 := set_inertia (fmul (inertia (this w)) (inertialDiscount (this w))) (this w)).
  set (w1 := mkWorld t1 (ext w) (log w)).
  destruct (updateParticles_spec (swarm t1) [] g w1 eq_refl)
    as (s' & x' & calls & Hupd & Hlen & Hcalls & Hall & _).
  set (w2 := mkWorld (set_swarm s' t1) x'
                     (log w ++ map (fun t => EvParticleUpdate t g) calls)).
  destruct (getGlobalBest_returns w2) as (g' & Hg & Hin).
  { simpl. intros E. rewrite E in Hlen. simpl in Hlen.
    destruct (swarm (this w)); [congruence | discriminate]. }
  { exact Hrec. }
  destruct (Comparator_prefers_recognized (comparator (this w)) (fitness g') (fitness u))
    as (better & Hbetter & Hnot).
  { rewrite Hcmp. exact Hrec. }
  exists g', (if better then g' else u), s',
         (handleParticle (if better then g' else u) count x'),
         (map (fun t => EvParticleUpdate t g) calls
              ++ [EvHandleParticle (if better then g' else u) count]).
  split; [| repeat split].
  - unfold iteration.
    rewrite (bind_returned _ _ w tt w1) by reflexivity.
    rewrite (bind_returned _ _ w1 t1 w1) by reflexivity.
    rewrite (bind_returned _ _ w1 tt w2) by exact Hupd.
    rewrite (bind_returned _ _ w2 g' w2) by exact Hg.
    rewrite (bind_returned _ _ w2 (this w2) w2) by reflexivity.
    rewrite (bind_returned _ _ w2 better w2)
      by (unfold liftOutcome; simpl; rewrite Hbetter; reflexivity).
    unfold bind, emit, extern, ret. simpl. rewrite <- app_assoc. reflexivity.
  - exact Hlen.
  - rewrite loopTrace_app, (loopTrace_updates t1 g calls Hall), Hcalls.
    reflexivity.
  - rewrite sweepTrace_app, sweepTrace_updates. reflexivity.
  - rewrite bestHistory_app, bestHistory_updates. reflexivity.
  - unfold neverWorse. destruct better; exact Hnot.
  - rewrite reported_app, reported_updates. reflexivity.
Qed.

Lemma set_inertia_same (t : NDPSO Particle) : set_inertia (inertia t) t = t.
Proof. destruct t. reflexivity. Qed.

Lemma discounted_shift k x d :
  discounted k (fmul x d) d = discounted (S k) x d.
Proof.
  induction k as [|k IH]; [reflexivity |].
  simpl. rewrite IH. reflexivity.
Qed.

Lemma flat_map_seq_S {A} (F : nat -> list A) n :
  flat_map F (seq 0 (S n)) = F O ++ flat_map (fun k => F (S k)) (seq 0 n).
Proof.
  simpl. f_equal. rewrite <- seq_shift, flat_map_concat_map, map_map.
  rewrite <- flat_map_concat_map. reflexivity.
Qed.


Lemma increment_returned count (w : World) :
  count < INT_MAX -> increment count w = (Returned (count + 1), w).
Proof.
  intros H. unfold increment. apply Z.ltb_lt in H. rewrite H. reflexivity.
Qed.

Lemma increment_overflow count (w : World) :
  INT_MAX <= count -> increment count w = (Undefined, w).
Proof.
  intros H. unfold increment. apply Z.ltb_ge in H. rewrite H. reflexivity.
Qed.

(** One pass of the loop: the body, then the increment. *)
Lemma iterations_S n count best (w w1 : World) best1 :
  iteration count best w = (Returned best1, w1) ->
  count < INT_MAX ->
  iterations (S n) count best w = iterations n (count + 1) best1 w1.
Proof.
  intros Hrun Hlt. simpl iterations.
  rewrite (bind_returned _ _ _ _ _ Hrun).
  rewrite (bind_returned _ _ _ _ _ (increment_returned count w1 Hlt)).
  reflexivity.
Qed.

Lemma iterations_spec n : forall count g u (w : World),
  Ready w ->
  count + Z.of_nat n <= INT_MAX ->
  exists g' u' s' x' evs,
    iterations n count (g, u) w =
    (Returned (g', u'),
     mkWorld (set_swarm s' (set_inertia (discounted n (inertia (this w))
                                                    (inertialDiscount (this w)))
                                        (this w)))
             x' (log w ++ evs)) /\
    length s' = length (swarm (this w)) /\
    loopTrace evs =
      flat_map (fun k =>
                  iterationSteps (length (swarm (this w)))
                                 (discounted (S k) (inertia (this w))
                                             (inertialDiscount (this w)))
                                 (count + Z.of_nat k))
               (seq 0 n) /\
    sweepTrace evs = [] /\
    Sorted (neverWorse (comparator (this w))) (fitness u :: bestHistory evs) /\
    length (bestHistory evs) = n /\
    last (bestHistory evs) (fitness u) = fitness u' /\
    last (reported evs) u = u'.
Proof.
  induction n as [|n IH]; intros count g u w Hready Hbound.
  - exists g, u, (swarm (this w)), (ext w), []. simpl.
    rewrite set_inertia_same, set_swarm_same, app_nil_r, world_eta.
    repeat split. repeat constructor.
  - destruct (iteration_spec count g u w Hready)
      as (g1 & u1 & s1 & x1 & evs1 & Hrun1 & Hlen1 & Hloop1 & Hsweep1 & Hbest1 & Hnw
          & Hrep1).
    match type of Hrun1 with _ = (_, ?w') => set (w1 := w') in * end.
    assert (Hready1 : Ready w1).
    { destruct Hready as (Hne & Hrec & Hcmp). repeat split; simpl; try assumption.
      intros E. rewrite E in Hlen1. destruct (swarm (this w)); [congruence | discriminate]. }
    destruct (IH (count + 1) g1 u1 w1 Hready1 ltac:(lia))
      as (g' & u' & s' & x' & evs2 & Hrun2 & Hlen2 & Hloop2 & Hsweep2
          & Hsorted & Hcount & Hlast & Hrep).
    exists g', u', s', x', (evs1 ++ evs2).
    split; [| repeat split].
    + rewrite (iterations_S _ _ _ _ _ _ Hrun1) by lia. rewrite Hrun2.
      simpl. rewrite discounted_shift, <- app_assoc. reflexivity.
    + rewrite Hlen2. simpl. exact Hlen1.
    + rewrite loopTrace_app, Hloop1, Hloop2, flat_map_seq_S.
      simpl discounted at 1. rewrite Z.add_0_r. f_equal.
      apply flat_map_ext. intros k. simpl inertia. simpl inertialDiscount.
      rewrite discounted_shift. simpl swarm. rewrite Hlen1. f_equal. lia.
    + rewrite sweepTrace_app, Hsweep1, Hsweep2. reflexivity.
    + rewrite bestHistory_app, Hbest1. simpl.
      constructor; [exact Hsorted | constructor; exact Hnw].
    + rewrite bestHistory_app, Hbest1. simpl. rewrite Hcount. reflexivity.
    + rewrite bestHistory_app, Hbest1. simpl app.
      change (last (fitness u1 :: bestHistory evs2) (fitness u))
        with (match bestHistory evs2 with
              | [] => fitness u1
              | _ :: _ => last (bestHistory evs2) (fitness u)
              end).
      rewrite <- Hlast. destruct (bestHistory evs2) as [|a l]; [reflexivity |].
      clear. revert a. induction l as [|b l IHl]; intros a; [reflexivity |].
      simpl in *. apply IHl.
    + rewrite reported_app, Hrep1. simpl app. rewrite last_cons. exact Hrep.
Qed.

(** *** [optimize] *)

(** The world in which the first global best is selected. *)
Lemma initialSetup_spec d (w : World) :
  exists ps x',
    initialSetup d w =
    getGlobalBest
      (mkWorld (set_swarm ps (set_comparator (mkComparator (objType d))
                                             (set_data d (this w))))
               x'
               (log w ++ EvOptimize d
                    :: repeat (EvParticleNew (numFacilities d) (numCustomers d))
                              (Z.to_nat (swarmSize (this w))))) /\
    length ps = Z.to_nat (swarmSize (this w)).
Proof.
  set (w1 := mkWorld (set_comparator (mkComparator (objType d)) (set_data d (this w)))
                     (ext w) (log w ++ [EvOptimize d])).
  destruct (initSwarm_spec w1) as (ps & x' & Hrun & Hlen & _).
  exists ps, x'. split; [| exact Hlen].
  unfold initialSetup.
  rewrite (bind_returned _ _ w tt (mkWorld (this w) (ext w) (log w ++ [EvOptimize d])))
    by reflexivity.
  rewrite (bind_returned _ _ _ tt
             (mkWorld (set_data d (this w)) (ext w) (log w ++ [EvOptimize d])))
    by reflexivity.
  rewrite (bind_returned _ _ _ tt w1) by reflexivity.
  rewrite (bind_returned _ _ _ _ _ Hrun).
  simpl. rewrite <- app_assoc. reflexivity.
Qed.

Lemma getGlobalBest_returned_inv (w w' : World) p :
  getGlobalBest w = (Returned p, w') ->
  w' = w /\ swarm (this w) <> [] /\ recognized (objType (data (this w))).
Proof.
  intros H. split; [| split].
  - rewrite <- (getGlobalBest_world w), H. reflexivity.
  - intros Hnil. apply getGlobalBest_nil_not_returned in Hnil.
    rewrite H in Hnil. discriminate.
  - unfold recognized.
    destruct (Z.eq_dec (objType (data (this w))) MINIMIZE) as [| H1]; [left; assumption |].
    destruct (Z.eq_dec (objType (data (this w))) MAXIMIZE) as [| H2]; [right; assumption |].
    rewrite (getGlobalBest_unrecognized w H1 H2) in H. discriminate.
Qed.

(** A run whose setup found a first global best goes through all its
    iterations and returns. *)
Lemma optimize_after_setup d (w w0 : World) g :
  initialSetup d w = (Returned g, w0) ->
  maxIterations (this w) < INT_MAX ->
  exists r s' x' evs u,
    optimize d w =
    (Returned r,
     mkWorld (set_swarm s'
                (set_inertia (discounted (Z.to_nat (maxIterations (this w)))
                                         (initialInertia (this w))
                                         (inertialDiscount (this w)))
                             (this w0)))
             x' (log w0 ++ evs)) /\
    length s' = Z.to_nat (swarmSize (this w)) /\
    this w0 = set_swarm (swarm (this w0))
                (set_comparator (mkComparator (objType d)) (set_data d (this w))) /\
    length (swarm (this w0)) = Z.to_nat (swarmSize (this w)) /\
    log w0 = log w ++ EvOptimize d
                 :: repeat (EvParticleNew (numFacilities d) (numCustomers d))
                           (Z.to_nat (swarmSize (this w))) /\
    Ready w0 /\
    loopTrace evs =
      flat_map (fun k =>
                  iterationSteps (Z.to_nat (swarmSize (this w)))
                                 (discounted (S k) (initialInertia (this w))
                                             (inertialDiscount (this w)))
                                 (1 + Z.of_nat k))
               (seq 0 (Z.to_nat (maxIterations (this w)))) /\
    sweepTrace evs = [] /\
    r = mkProblemResults (r_time r) (fitness u) (position u)
                         (AssignmentStrategy_assign (costs d) (position u) (type d))
                         (type d) (objType d) /\
    Sorted (neverWorse (mkComparator (objType d))) (fitness g :: bestHistory evs) /\
    length (bestHistory evs) = Z.to_nat (maxIterations (this w)) /\
    last (bestHistory evs) (fitness g) = fitness u /\
    (Z.to_nat (maxIterations (this w)) = O ->
     u = g /\ evs = [] /\ s' = swarm (this w0)) /\
    last (reported evs) g = u.
Proof.
  intros Hs Hbound. pose proof Hs as Hsetup.
  destruct (initialSetup_spec d w) as (ps & x0 & Hinit & Hps).
  rewrite Hinit in Hsetup.
  destruct (getGlobalBest_returned_inv _ _ _ Hsetup) as (Hw0 & Hne & Hrec).
  assert (Hready : Ready w0) by (subst w0; repeat split; assumption).
  assert (Hthis : this w0 = set_swarm ps (set_comparator (mkComparator (objType d))
                                                          (set_data d (this w))))
    by (subst w0; reflexivity).
  set (w1 := mkWorld (set_inertia (initialInertia (this w0)) (this w0)) (ext w0) (log w0)).
  destruct (clock (ext w0)) as [begin xb] eqn:Hclock.
  set (w2 := mkWorld (this w1) xb (log w0)).
  assert (Hready2 : Ready w2).
  { destruct Hready as (H1 & H2 & H3). repeat split; assumption. }
  assert (Hmax : maxIterations (this w2) = maxIterations (this w))
    by (simpl; rewrite Hthis; reflexivity).
  destruct (iterations_spec (Z.to_nat (maxIterations (this w2))) 1 g g w2 Hready2)
    as (g' & u & s' & x' & evs & Hrun & Hlen & Hloop & Hsweep
        & Hsorted & Hcount & Hlast & Hrep).
  { rewrite Hmax. unfold INT_MAX in *. lia. }
  destruct (clock x') as [now xe] eqn:Hclock'.
  assert (Hini : initialInertia (this w0) = initialInertia (this w))
    by (rewrite Hthis; reflexivity).
  assert (Hdis : inertialDiscount (this w0) = inertialDiscount (this w))
    by (rewrite Hthis; reflexivity).
  assert (Hsz : length (swarm (this w0)) = Z.to_nat (swarmSize (this w)))
    by (rewrite Hthis; exact Hps).
  eexists _, s', xe, evs, u.
  split; [| repeat split; try exact Hrep].
  - unfold optimize.
    rewrite (bind_returned _ _ _ _ _ Hs).
    rewrite (bind_returned _ _ w0 tt w1) by reflexivity.
    rewrite (bind_returned _ _ w1 begin w2)
      by (unfold externR; simpl; rewrite Hclock; reflexivity).
    rewrite (bind_returned _ _ w2 (this w2) w2) by reflexivity.
    rewrite (bind_returned _ _ _ _ _ Hrun).
    unfold bind at 1, externR. simpl ext. rewrite Hclock'.
    unfold bind, getThis, ret. simpl.
    rewrite Hini, Hdis, <- Hmax. reflexivity.
  - rewrite Hlen. exact Hsz.
  - rewrite Hthis. reflexivity.
  - exact Hsz.
  - subst w0. reflexivity.
  - apply Hready.
  - apply Hready.
  - apply Hready.
  - rewrite Hloop, <- Hmax. simpl. rewrite Hini, Hdis, Hsz. reflexivity.
  - exact Hsweep.
  - simpl. rewrite Hthis. reflexivity.
  - simpl in Hsorted. rewrite Hthis in Hsorted. exact Hsorted.
  - rewrite Hcount. f_equal. exact Hmax.
  - exact Hlast.
  - rewrite <- Hmax in H. rewrite H in Hrun. simpl in Hrun. unfold ret in Hrun.
    congruence.
  - rewrite <- Hmax in H. rewrite H in Hrun. simpl in Hrun. unfold ret in Hrun.
    pose proof (f_equal (fun p => log (snd p)) Hrun) as E. simpl in E.
    rewrite <- (app_nil_r (log w0)) in E at 1.
    apply app_inv_head in E. symmetry. exact E.
  - rewrite <- Hmax in H. rewrite H in Hrun. simpl in Hrun. unfold ret in Hrun.
    pose proof (f_equal (fun p => swarm (this (snd p))) Hrun) as E. simpl in E.
    symmetry. exact E.
Qed.

Lemma bind_thrown {A B} (m : M A) (k : A -> M B) w what w' :
  m w = (Thrown what, w') -> bind m k w = (Thrown what, w').
Proof. intros H. unfold bind. rewrite H. reflexivity. Qed.

Lemma Sorted_weaken {A} (R R' : A -> A -> Prop) (l : list A) :
  (forall a b, R a b -> R' a b) -> Sorted R l -> Sorted R' l.
Proof.
  intros Himp. induction 1 as [|a l _ IH Hhd]; constructor; [exact IH |].
  destruct Hhd; constructor. apply Himp. assumption.
Qed.

Lemma neverWorse_MINIMIZE (old new : Z) :
  neverWorse (mkComparator MINIMIZE) old new -> old >= new.
Proof.
  unfold neverWorse, Comparator_prefers. simpl. rewrite Z.eqb_refl.
  intros H. injection H as H. apply Z.ltb_ge in H. lia.
Qed.

Lemma neverWorse_MAXIMIZE (old new : Z) :
  MINIMIZE <> MAXIMIZE ->
  neverWorse (mkComparator MAXIMIZE) old new -> old <= new.
Proof.
  unfold neverWorse, Comparator_prefers. simpl. intros Hd.
  destruct (Z.eqb_spec MAXIMIZE MINIMIZE) as [E | _]; [congruence |].
  rewrite Z.eqb_refl, Z.gtb_ltb.
  intros H. injection H as H. apply Z.ltb_ge in H. exact H.
Qed.

(** With a recognized direction and a swarm to build, the setup selects a
    first global best. *)
Lemma initialSetup_returns d (w : World) :
  recognized (objType d) ->
  0 < swarmSize (this w) ->
  exists g w0, initialSetup d w = (Returned g, w0).
Proof.
  intros Hrec Hpos.
  destruct (initialSetup_spec d w) as (ps & x0 & Hinit & Hps).
  match type of Hinit with _ = getGlobalBest ?W => set (w0 := W) in * end.
  destruct (getGlobalBest_returns w0) as (g & Hg & _).
  { simpl. intros E. rewrite E in Hps. simpl in Hps. lia. }
  { exact Hrec. }
  exists g, w0. rewrite Hinit. exact Hg.
Qed.


(** C3. Within one run of [optimize], the fitness of the all-time best is
    monotone under the comparator of the run: starting from the first global
    best and going through the value reported at the end of each of the
    [maxIterations] iterations, each value is preferred or equal to the one
    before it, which means never larger under MINIMIZE and never smaller
    under MAXIMIZE. The last of them is the fitness returned. The run is
    one whose setup selected a first global best and whose [maxIterations]
    is below the largest [int], so that the counter of the loop reaches its
    end. *)
Theorem optimize_uBest_monotone d (w w0 : World) g :
  MINIMIZE <> MAXIMIZE ->
  initialSetup d w = (Returned g, w0) ->
  maxIterations (this w) < INT_MAX ->
  exists r w' evs,
    optimize d w = (Returned r, w') /\
    log w' = log w0 ++ evs /\
    length (bestHistory evs) = Z.to_nat (maxIterations (this w)) /\
    Sorted (neverWorse (comparator (this w0))) (fitness g :: bestHistory evs) /\
    cmpType (comparator (this w0)) = objType d /\
    (objType d = MINIMIZE -> Sorted Z.ge (fitness g :: bestHistory evs)) /\
    (objType d = MAXIMIZE -> Sorted Z.le (fitness g :: bestHistory evs)) /\
    r_fitness r = last (bestHistory evs) (fitness g).
Proof.
  intros Hd Hsetup Hbound.
  destruct (optimize_after_setup d w w0 g Hsetup Hbound)
    as (r & s' & x' & evs & u & Hrun & _ & Hthis & _ & _ & _ & _ & _ & Hr
        & Hsorted & Hcount & Hlast & _).
  assert (Hcmp : comparator (this w0) = mkComparator (objType d))
    by (rewrite Hthis; reflexivity).
  eexists r, _, evs. split; [exact Hrun |]. simpl. rewrite Hcmp.
  repeat split; try assumption.
  - intros Hmin. rewrite Hmin in Hsorted.
    eapply Sorted_weaken; [| exact Hsorted]. apply neverWorse_MINIMIZE.
  - intros Hmax. rewrite Hmax in Hsorted.
    eapply Sorted_weaken; [| exact Hsorted].
    intros a b. apply neverWorse_MAXIMIZE. exact Hd.
  - rewrite Hr, Hlast. reflexivity.
Qed.

(** C7 (as the code has it). On an empty swarm [getGlobalBest] makes no
    check of its own: with a recognized direction it dereferences the end
    iterator, which is undefined behaviour and raises nothing; only an
    unrecognized [objType] makes it throw. *)
Theorem getGlobalBest_empty_swarm (w : World) :
  swarm (this w) = [] ->
  getGlobalBest w =
  (if (objType (data (this w)) =? MINIMIZE) || (objType (data (this w)) =? MAXIMIZE)
   then Undefined else Thrown unrecognized, w).
Proof.
  intros Hnil. unfold getGlobalBest, bind, getThis, deref.
  rewrite Hnil. simpl.
  destruct (Z.eqb_spec (objType (data (this w))) MINIMIZE) as [Hmin | Hnmin];
    [reflexivity |].
  destruct (Z.eqb_spec (objType (data (this w))) MAXIMIZE) as [Hmax | Hnmax];
    reflexivity.
Qed.

(** C6. When the [objType] is neither MINIMIZE nor MAXIMIZE, the selection
    of the global best throws, whatever the swarm, and selects nothing;
    the exception ends the call of [optimize] that made the selection. *)
Theorem getGlobalBest_unrecognized_objType d :
  objType d <> MINIMIZE ->
  objType d <> MAXIMIZE ->
  (forall w : World, data (this w) = d -> getGlobalBest w = (Thrown unrecognized, w)) /\
  (forall w : World, fst (optimize d w) = Thrown unrecognized).
Proof.
  intros Hmin Hmax. split.
  - intros w Hw. apply getGlobalBest_unrecognized; rewrite Hw; assumption.
  - intros w. destruct (initialSetup_spec d w) as (ps & x' & Hinit & _).
    rewrite getGlobalBest_unrecognized in Hinit by assumption.
    unfold optimize. rewrite (bind_thrown _ _ _ _ _ Hinit). reflexivity.
Qed.

(** *** [searchParameters] *)

(** On a runnable optimizer and with a recognized direction, a trial
    returns. It leaves the optimizer runnable, and is one step of the
    sweep. *)
Lemma optimize_returns d (w : World) :
  recognized (objType d) ->
  Runnable w ->
  exists r w' evs,
    optimize d w = (Returned r, w') /\
    Runnable w' /\
    log w' = log w ++ evs /\
    sweepTrace evs = [Trial].
Proof.
  intros Hrec (Hpos & Hbound).
  destruct (initialSetup_returns d w Hrec Hpos) as (g & w0 & Hsetup).
  destruct (optimize_after_setup d w w0 g Hsetup Hbound)
    as (r & s' & x' & evs & u & Hrun & _ & Hthis & _ & Hlog0 & _ & _ & Hsweep & _).
  exists r. eexists. exists (EvOptimize d
                            :: repeat (EvParticleNew (numFacilities d) (numCustomers d))
                                      (Z.to_nat (swarmSize (this w))) ++ evs).
  split; [exact Hrun |]. unfold Runnable. cbn [this log]. rewrite Hthis.
  split; [split; assumption |]. split.
  - rewrite Hlog0, <- app_assoc. reflexivity.
  - change (sweepTrace (EvOptimize d :: ?l)) with (Trial :: sweepTrace l).
    rewrite sweepTrace_app, sweepTrace_news, Hsweep. reflexivity.
Qed.

Lemma trials_spec d n : forall done (w : World),
  recognized (objType d) ->
  Runnable w ->
  exists w' evs,
    trials n d done w = (Returned (done + Z.of_nat n), w') /\
    Runnable w' /\
    log w' = log w ++ evs /\
    sweepTrace evs = repeat Trial n.
Proof.
  induction n as [|n IH]; intros done w Hrec Hpos.
  - exists w, []. simpl. rewrite Z.add_0_r, app_nil_r. repeat split; apply Hpos.
  - set (w1 := mkWorld (this w) (handleAlgorithm (this w) (name d) (type d) (objType d) (ext w))
                       (log w ++ [EvHandleAlgorithm (this w)])).
    destruct (optimize_returns d w1 Hrec Hpos) as (r & w2 & evs2 & Hrun & Hsz2 & Hlog2 & Hsw2).
    set (w3 := mkWorld (this w2) (handleResults r (ext w2)) (log w2 ++ [EvHandleResults r])).
    destruct (IH (done + 1) w3 Hrec) as (w' & evs3 & Hrest & Hsz3 & Hlog3 & Hsw3).
    { exact Hsz2. }
    exists w', (EvHandleAlgorithm (this w) :: evs2 ++ EvHandleResults r :: evs3).
    split; [| split; [| split]].
    + simpl trials.
      rewrite (bind_returned _ _ w (this w) w) by reflexivity.
      rewrite (bind_returned _ _ w tt (mkWorld (this w) (ext w)
                                               (log w ++ [EvHandleAlgorithm (this w)])))
        by reflexivity.
      rewrite (bind_returned _ _ _ tt w1) by reflexivity.
      rewrite (bind_returned _ _ _ _ _ Hrun).
      rewrite (bind_returned _ _ w2 tt (mkWorld (this w2) (ext w2)
                                                (log w2 ++ [EvHandleResults r])))
        by reflexivity.
      rewrite (bind_returned _ _ _ tt w3) by reflexivity.
      rewrite Hrest. f_equal. f_equal. lia.
    + exact Hsz3.
    + rewrite Hlog3. simpl. rewrite Hlog2. simpl.
      rewrite <- !app_assoc. reflexivity.
    + change (sweepTrace (EvHandleAlgorithm (this w) :: ?l)) with (sweepTrace l).
      rewrite sweepTrace_app, Hsw2.
      change (sweepTrace (EvHandleResults r :: evs3)) with (sweepTrace evs3).
      rewrite Hsw3. reflexivity.
Qed.

(** The float loop visits exactly the five grid values. *)
Lemma visits_grid : visits grid sweep_start.
Proof. vm_compute. repeat split; reflexivity. Qed.

Lemma for_float_visits body T cs : forall c fuel,
  bodyDoes body T ->
  visits cs c ->
  (length cs < fuel)%nat ->
  forall done (w : World),
    Runnable w ->
    exists done' w' evs,
      for_float fuel c body done w = (Returned done', w') /\
      Runnable w' /\
      log w' = log w ++ evs /\
      sweepTrace evs = flat_map T cs.
Proof.
  induction cs as [|c' cs IH]; intros c fuel Hbody Hvis Hfuel done w Hpos.
  - destruct fuel as [|fuel]; [simpl in Hfuel; lia |].
    simpl in Hvis. simpl. rewrite Hvis.
    exists done, w, []. rewrite app_nil_r. repeat split; apply Hpos.
  - destruct fuel as [|fuel]; [simpl in Hfuel; lia |].
    destruct Hvis as (Hc & Hcond & Hrest). subst c'.
    destruct (Hbody c done w Hpos) as (done1 & w1 & evs1 & Hrun1 & Hpos1 & Hlog1 & Hsw1).
    destruct (IH (sweep_step c) fuel Hbody Hrest) with (done := done1) (w := w1)
      as (done' & w' & evs2 & Hrun2 & Hpos2 & Hlog2 & Hsw2).
    { simpl in Hfuel. lia. }
    { exact Hpos1. }
    exists done', w', (evs1 ++ evs2). simpl for_float. rewrite Hcond.
    rewrite (bind_returned _ _ _ _ _ Hrun1), Hrun2.
    split; [reflexivity |]. split; [exact Hpos2 |]. split.
    + rewrite Hlog2, Hlog1, <- app_assoc. reflexivity.
    + rewrite sweepTrace_app, Hsw1, Hsw2. reflexivity.
Qed.

Lemma for_float_grid fuel body T :
  (6 <= fuel)%nat ->
  bodyDoes body T ->
  forall done (w : World),
    Runnable w ->
    exists done' w' evs,
      for_float fuel sweep_start body done w = (Returned done', w') /\
      Runnable w' /\
      log w' = log w ++ evs /\
      sweepTrace evs = flat_map T grid.
Proof.
  intros Hfuel Hbody. apply for_float_visits.
  - exact Hbody.
  - exact visits_grid.
  - simpl. lia.
Qed.

Lemma searchParameters_spec fuel d (w : World) :
  (6 <= fuel)%nat ->
  recognized (objType d) ->
  Runnable w ->
  exists w' evs,
    searchParameters fuel d w = (Returned tt, w') /\
    log w' = log w ++ evs /\
    sweepTrace evs = expectedSweep.
Proof.
  intros Hfuel Hrec Hpos. unfold searchParameters.
  match goal with
  | |- context [for_float fuel sweep_start ?body 0] =>
      destruct (for_float_grid fuel body
                  (fun c1 => SetInertia c1 :: flat_map (fun c2 =>
                     SetCognitive c2 :: flat_map (fun c3 =>
                       SetSocial c3 :: repeat Trial 10) grid) grid) Hfuel)
        with (done := 0) (w := w)
        as (done' & w' & evs & Hrun & _ & Hlog & Hsw)
  end.
  - (* the body of the outer loop *)
    intros c1 done1 w1 Hpos1.
    set (w1' := mkWorld (set_initialInertia c1 (set_inertia c1 (this w1))) (ext w1)
                        (log w1 ++ [EvSetInertia c1])).
    match goal with
    | |- context [for_float fuel sweep_start ?body done1] =>
        destruct (for_float_grid fuel body
                    (fun c2 => SetCognitive c2 :: flat_map (fun c3 =>
                       SetSocial c3 :: repeat Trial 10) grid) Hfuel)
          with (done := done1) (w := w1')
          as (done2 & w2 & evs2 & Hrun2 & Hpos2 & Hlog2 & Hsw2)
    end.
    + (* the body of the middle loop *)
      intros c2 done2 w2 Hpos2.
      set (w2' := mkWorld (set_cognitive c2 (this w2)) (ext w2)
                          (log w2 ++ [EvSetCognitive c2])).
      match goal with
      | |- context [for_float fuel sweep_start ?body done2] =>
          destruct (for_float_grid fuel body
                      (fun c3 => SetSocial c3 :: repeat Trial 10) Hfuel)
            with (done := done2) (w := w2')
            as (done3 & w3 & evs3 & Hrun3 & Hpos3 & Hlog3 & Hsw3)
      end.
      * (* the body of the inner loop *)
        intros c3 done3 w3 Hpos3.
        set (w3' := mkWorld (set_social c3 (this w3)) (ext w3)
                            (log w3 ++ [EvSetSocial c3])).
        destruct (trials_spec d 10 done3 w3' Hrec Hpos3)
          as (w4 & evs4 & Hrun4 & Hsz4 & Hlog4 & Hsw4).
        exists (done3 + 10),
               (mkWorld (this w4) (cout_done (done3 + 10) (ext w4))
                        (log w4 ++ [EvDone (done3 + 10)])),
               (EvSetSocial c3 :: evs4 ++ [EvDone (done3 + 10)]).
        split; [| split; [| split]].
        -- unfold setSocial.
           rewrite (bind_returned _ _ w3 tt w3') by reflexivity.
           rewrite (bind_returned _ _ _ _ _ Hrun4). reflexivity.
        -- exact Hsz4.
        -- simpl. rewrite Hlog4. simpl. rewrite <- !app_assoc. reflexivity.
        -- change (sweepTrace (EvSetSocial c3 :: ?l)) with (SetSocial c3 :: sweepTrace l).
           rewrite sweepTrace_app, Hsw4. simpl. reflexivity.
      * exact Hpos2.
      * exists done3, w3, (EvSetCognitive c2 :: evs3).
        split; [| split; [| split]].
        -- unfold setCognitive.
           rewrite (bind_returned _ _ w2 tt w2') by reflexivity.
           exact Hrun3.
        -- exact Hpos3.
        -- rewrite Hlog3. simpl. rewrite <- app_assoc. reflexivity.
        -- change (sweepTrace (EvSetCognitive c2 :: ?l))
             with (SetCognitive c2 :: sweepTrace l).
           rewrite Hsw3. reflexivity.
    + exact Hpos1.
    + exists done2, w2, (EvSetInertia c1 :: evs2).
      split; [| split; [| split]].
      * unfold setInertia.
        rewrite (bind_returned _ _ w1 tt w1') by reflexivity.
        exact Hrun2.
      * exact Hpos2.
      * rewrite Hlog2. simpl. rewrite <- app_assoc. reflexivity.
      * change (sweepTrace (EvSetInertia c1 :: ?l)) with (SetInertia c1 :: sweepTrace l).
        rewrite Hsw2. reflexivity.
  - exact Hpos.
  - exists w', evs. rewrite (bind_returned _ _ _ _ _ Hrun).
    repeat split; assumption.
Qed.

Lemma expectedSweep_trials : length (filter isTrial expectedSweep) = 1250%nat.
Proof. vm_compute. reflexivity. Qed.

Lemma expectedSweep_configs :
  trialConfigs None None None expectedSweep = flat_map (fun t => repeat t 10) grid3.
Proof. vm_compute. reflexivity. Qed.

Lemma grid3_NoDup : NoDup grid3.
Proof.
  assert (H : nodup triple_eq_dec grid3 = grid3) by (vm_compute; reflexivity).
  rewrite <- H. apply NoDup_nodup.
Qed.

Lemma grid3_length : length grid3 = 125%nat.
Proof. vm_compute. reflexivity. Qed.

(** C1 (as the code has it). For every problem whose [objType] is MINIMIZE
    or MAXIMIZE, on an optimizer with a positive swarm size and with
    [maxIterations] below the largest [int] (so that every trial runs to
    its end), [searchParameters] returns after setting the coefficients and
    calling [optimize] as the sweep of the specification does: [optimize] is
    called 1250 times, the triples in force at the calls are the 125
    distinct triples of the grid, that is the [float]s of 0.1, 0.3, 0.5, 0.7
    and 0.9, in (inertia, cognitive, social) order, each triple set once and
    in force for exactly 10 consecutive calls. *)
Theorem searchParameters_sweep fuel d (w : World) :
  (6 <= fuel)%nat ->
  recognized (objType d) ->
  0 < swarmSize (this w) ->
  maxIterations (this w) < INT_MAX ->
  exists w' evs,
    searchParameters fuel d w = (Returned tt, w') /\
    log w' = log w ++ evs /\
    sweepTrace evs = expectedSweep /\
    length (filter isTrial (sweepTrace evs)) = 1250%nat /\
    trialConfigs None None None (sweepTrace evs)
      = flat_map (fun t => repeat t 10) grid3 /\
    NoDup grid3 /\
    length grid3 = 125%nat.
Proof.
  intros Hfuel Hrec Hpos Hbound.
  destruct (searchParameters_spec fuel d w Hfuel Hrec (conj Hpos Hbound))
    as (w' & evs & Hrun & Hlog & Hsw).
  exists w', evs. rewrite Hsw.
  split; [exact Hrun |]. split; [exact Hlog |]. split; [reflexivity |].
  split; [exact expectedSweep_trials |]. split; [exact expectedSweep_configs |].
  split; [exact grid3_NoDup | exact grid3_length].
Qed.

End Properties.

(** ** Further properties of the engine *)

Section MoreProperties.

Context {Particle : Type} {Ext : Type} {collab : Collaborators Particle Ext}.

Local Abbreviation World := (World Particle Ext).
Local Abbreviation M := (M Particle Ext).

(** *** Selection, once more *)

(** The selection reads the optimizer only. *)
Lemma getGlobalBest_reads_this (w1 w2 : World) :
  this w1 = this w2 -> fst (getGlobalBest w1) = fst (getGlobalBest w2).
Proof.
  intros H. unfold getGlobalBest, bind, getThis, deref, ret, undefined, throw.
  rewrite H.
  destruct (objType (data (this w2)) =? MINIMIZE).
  - destruct (nth_error _ _); reflexivity.
  - destruct (objType (data (this w2)) =? MAXIMIZE).
    + destruct (nth_error _ _); reflexivity.
    + reflexivity.
Qed.

Lemma getGlobalBest_nil_recognized (w : World) :
  swarm (this w) = [] ->
  recognized (objType (data (this w))) ->
  getGlobalBest w = (Undefined, w).
Proof.
  intros Hnil Hrec. unfold getGlobalBest, bind, getThis, deref. rewrite Hnil.
  destruct (Z.eqb_spec (objType (data (this w))) MINIMIZE) as [| Hn]; [reflexivity |].
  destruct Hrec as [Hmin | Hmax]; [contradiction |].
  rewrite Hmax, Z.eqb_refl. reflexivity.
Qed.

(** *** The outcome of [optimize] and what it leaves behind *)

Lemma bind_undefined {A B} (m : M A) (k : A -> M B) w w' :
  m w = (Undefined, w') -> bind m k w = (Undefined, w').
Proof. intros H. unfold bind. rewrite H. reflexivity. Qed.

Lemma bind_outOfFuel {A B} (m : M A) (k : A -> M B) w w' :
  m w = (OutOfFuel, w') -> bind m k w = (OutOfFuel, w').
Proof. intros H. unfold bind. rewrite H. reflexivity. Qed.

(** The world the setup leaves when it has selected a first global best. *)
Lemma initialSetup_ready d (w w0 : World) g :
  initialSetup d w = (Returned g, w0) ->
  Ready w0 /\
  this w0 = set_swarm (swarm (this w0))
              (set_comparator (mkComparator (objType d)) (set_data d (this w))) /\
  length (swarm (this w0)) = Z.to_nat (swarmSize (this w)) /\
  log w0 = log w ++ EvOptimize d
               :: repeat (EvParticleNew (numFacilities d) (numCustomers d))
                         (Z.to_nat (swarmSize (this w))).
Proof.
  intros Hsetup.
  destruct (initialSetup_spec d w) as (ps & x0 & Hinit & Hps).
  rewrite Hinit in Hsetup.
  destruct (getGlobalBest_returned_inv _ _ _ Hsetup) as (Hw0 & Hne & Hrec).
  subst w0. repeat split; assumption.
Qed.

(** One pass of the loop leaves the optimizer set up, with the parameters
    it had. *)
Lemma iteration_ready count g u (w : World) :
  Ready w ->
  exists best1 w1,
    iteration count (g, u) w = (Returned best1, w1) /\
    Ready w1 /\
    sameParameters (this w) (this w1).
Proof.
  intros Hready.
  destruct (iteration_spec count g u w Hready)
    as (g1 & u1 & s1 & x1 & evs1 & Hrun1 & Hlen1 & _).
  eexists. eexists. split; [exact Hrun1 |]. split.
  - destruct Hready as (Hne & Hrec & Hcmp). repeat split; simpl; try assumption.
    intros E. rewrite E in Hlen1. destruct (swarm (this w)); [congruence | discriminate].
  - repeat split.
Qed.

(** The counter overflows: when the loop has more passes to make than
    there are values of [count] left, it runs into the undefined increment
    of the largest [int]. *)
Lemma iterations_overflow n : forall count g u (w : World),
  Ready w ->
  count <= INT_MAX ->
  INT_MAX < count + Z.of_nat n ->
  fst (iterations n count (g, u) w) = Undefined.
Proof.
  induction n as [|n IH]; intros count g u w Hready Hle Hgt; [lia |].
  destruct (iteration_ready count g u w Hready) as ([g1 u1] & w1 & Hrun1 & Hready1 & _).
  simpl iterations. rewrite (bind_returned _ _ _ _ _ Hrun1).
  destruct (Z.ltb_spec count INT_MAX) as [Hlt | Hge].
  - rewrite (bind_returned _ _ _ _ _ (increment_returned count w1 Hlt)).
    apply IH; [exact Hready1 | lia | lia].
  - rewrite (bind_undefined _ _ _ _ (increment_overflow count w1 Hge)).
    reflexivity.
Qed.

(** After the setup, [optimize] is its loop: an undefined loop is an
    undefined call. *)
Lemma optimize_undefined_loop d (w w0 : World) g :
  initialSetup d w = (Returned g, w0) ->
  fst (iterations (Z.to_nat (maxIterations (this w0))) 1 (g, g)
                  (mkWorld (set_inertia (initialInertia (this w0)) (this w0))
                           (snd (clock (ext w0))) (log w0))) = Undefined ->
  fst (optimize d w) = Undefined.
Proof.
  intros Hsetup Hloop. unfold optimize.
  rewrite (bind_returned _ _ _ _ _ Hsetup).
  rewrite (bind_returned _ _ w0 tt
             (mkWorld (set_inertia (initialInertia (this w0)) (this w0))
                      (ext w0) (log w0))) by reflexivity.
  unfold bind at 1, externR. simpl.
  destruct (clock (ext w0)) as [begin xb]. simpl in *.
  unfold bind at 1, getThis. simpl.
  unfold bind at 1.
  destruct (iterations _ 1 (g, g) _) as [o w3]. simpl in Hloop. subst o.
  reflexivity.
Qed.

(** X2. Two ways into undefined behaviour that [optimize] does not guard
    against. With a recognized [objType], a swarm size of zero or less
    makes the first selection dereference the end of an empty swarm; and
    with [maxIterations] the largest [int] the condition of the loop cannot
    fail, so that the increment of the counter overflows after the pass
    with that count. *)
Theorem optimize_outcome d (w : World) :
  recognized (objType d) ->
  swarmSize (this w) <= 0 \/ maxIterations (this w) = INT_MAX ->
  fst (optimize d w) = Undefined.
Proof.
  intros Hrec Hcase.
  destruct (Z.ltb_spec 0 (swarmSize (this w))) as [Hpos | Hnpos].
  - destruct Hcase as [Hsz | Hmax]; [lia |].
    destruct (initialSetup_returns d w Hrec Hpos) as (g & w0 & Hsetup).
    destruct (initialSetup_ready d w w0 g Hsetup) as (Hready & Hthis & _).
    apply (optimize_undefined_loop d w w0 g Hsetup).
    assert (Hmax0 : maxIterations (this w0) = INT_MAX)
      by (rewrite Hthis; exact Hmax).
    apply iterations_overflow.
    + destruct Hready as (H1 & H2 & H3). repeat split; assumption.
    + unfold INT_MAX. lia.
    + rewrite Hmax0. unfold INT_MAX. lia.
  - destruct (initialSetup_spec d w) as (ps & x0 & Hinit & Hps).
    match type of Hinit with _ = getGlobalBest ?W => set (w0 := W) in * end.
    assert (Hnil : swarm (this w0) = []).
    { simpl. destruct ps; [reflexivity | simpl in Hps; lia]. }
    rewrite (getGlobalBest_nil_recognized w0 Hnil Hrec) in Hinit.
    unfold optimize. rewrite (bind_undefined _ _ _ _ Hinit). reflexivity.
Qed.

(** X3. What a call of [optimize] whose behaviour is defined leaves
    behind. On a runnable optimizer and with a recognized [objType] the call
    returns; with an unrecognized one it throws. Either way the swarm size,
    the social and cognitive coefficients, the initial inertia, the discount
    and the iteration count are as they were, the problem is bound, the
    comparator is configured with the problem's [objType], and the swarm
    has [max swarmSize 0] particles. The current inertia ends as the initial
    inertia discounted [maxIterations] times when the call returns; it is
    as it was when the call throws, the reset coming after the first
    selection. *)
Theorem optimize_leaves (d : ProblemData) (w : World) :
  (recognized (objType d) ->
   Runnable w ->
   exists r w',
     optimize d w = (Returned r, w') /\
     leaves d w w' /\
     inertia (this w') =
     discounted (Z.to_nat (maxIterations (this w)))
                (initialInertia (this w)) (inertialDiscount (this w))) /\
  (~ recognized (objType d) ->
   exists w',
     optimize d w = (Thrown unrecognized, w') /\
     leaves d w w' /\
     inertia (this w') = inertia (this w)).
Proof.
  split.
  - intros Hrec (Hpos & Hbound).
    destruct (initialSetup_returns d w Hrec Hpos) as (g & w0 & Hsetup).
    destruct (optimize_after_setup d w w0 g Hsetup Hbound)
      as (r & s' & x' & evs & u & Hrun & Hlen & Hthis & _).
    eexists r, _. split; [exact Hrun |].
    unfold leaves, sameParameters. cbn [this]. rewrite Hthis. simpl. rewrite Hlen.
    repeat split. lia.
  - intros Hnrec.
    destruct (initialSetup_spec d w) as (ps & x0 & Hinit & Hps).
    rewrite getGlobalBest_unrecognized in Hinit
      by (simpl; intros E; apply Hnrec; unfold recognized; auto).
    eexists. split.
    + unfold optimize. rewrite (bind_thrown _ _ _ _ _ Hinit). reflexivity.
    + unfold leaves, sameParameters. simpl. rewrite Hps. repeat split. lia.
Qed.

(** *** The result against the swarm the run started from *)

Lemma Sorted_ge_last l : forall a, Sorted Z.ge (a :: l) -> last l a <= a.
Proof.
  induction l as [|b l IH]; intros a H; [simpl; lia |].
  inversion H as [| ? ? Hs Hhd]; subst. inversion Hhd; subst.
  rewrite last_cons. specialize (IH b Hs). lia.
Qed.

Lemma Sorted_le_last l : forall a, Sorted Z.le (a :: l) -> a <= last l a.
Proof.
  induction l as [|b l IH]; intros a H; [simpl; lia |].
  inversion H as [| ? ? Hs Hhd]; subst. inversion Hhd; subst.
  rewrite last_cons. specialize (IH b Hs). lia.
Qed.

(** The particle the setup selects, in the world the setup leaves. *)
Lemma initialSetup_selects d (w w0 : World) g :
  initialSetup d w = (Returned g, w0) ->
  getGlobalBest w0 = (Returned g, w0) /\ data (this w0) = d.
Proof.
  intros Hsetup.
  destruct (initialSetup_spec d w) as (ps & x0 & Hinit & _).
  rewrite Hinit in Hsetup.
  destruct (getGlobalBest_returned_inv _ _ _ Hsetup) as (Hw0 & _ & _).
  rewrite <- Hw0 in Hsetup. split; [exact Hsetup |].
  rewrite Hw0. reflexivity.
Qed.

(** X7. A negative [maxIterations] is not rejected: it behaves as zero
    iterations. The run returns the first global best, the loop logs
    nothing, the swarm stays as initialized and the inertia is left at its
    initial value. *)
Theorem optimize_nonpositive_iterations d (w w0 : World) g :
  maxIterations (this w) <= 0 ->
  initialSetup d w = (Returned g, w0) ->
  exists r w',
    optimize d w = (Returned r, w') /\
    r_fitness r = fitness g /\
    r_position r = position g /\
    log w' = log w0 /\
    swarm (this w') = swarm (this w0) /\
    inertia (this w') = initialInertia (this w).
Proof.
  intros Hneg Hsetup.
  assert (Hbound : maxIterations (this w) < INT_MAX) by (unfold INT_MAX; lia).
  destruct (optimize_after_setup d w w0 g Hsetup Hbound)
    as (r & s' & x' & evs & u & Hrun & _ & _ & _ & _ & _ & _ & _ & Hr
        & _ & _ & _ & Hnone & _).
  assert (Hn : Z.to_nat (maxIterations (this w)) = O) by lia.
  destruct (Hnone Hn) as (Hu & Hevs & Hs'). subst u evs s'.
  rewrite Hn in Hrun.
  eexists r, _. split; [exact Hrun |]. simpl. rewrite app_nil_r, Hr. simpl.
  repeat split.
Qed.

(** *** One iteration, event by event *)

Lemma iteration_run count g u (w : World) :
  Ready w ->
  exists g' (better : bool) s' x' calls,
    iteration count (g, u) w =
    (Returned (g', if better then g' else u),
     mkWorld (set_swarm s' (set_inertia (fmul (inertia (this w))
                                              (inertialDiscount (this w)))
                                        (this w)))
             x'
             (log w ++ map (fun t => EvParticleUpdate t g) calls
                  ++ [EvHandleParticle (if better then g' else u) count])) /\
    length s' = length (swarm (this w)) /\
    length calls = length (swarm (this w)) /\
    In g' s' /\
    (forall x l,
        getGlobalBest
          (mkWorld (set_swarm s' (set_inertia (fmul (inertia (this w))
                                                    (inertialDiscount (this w)))
                                              (this w))) x l)
        = (Returned g',
           mkWorld (set_swarm s' (set_inertia (fmul (inertia (this w))
                                                    (inertialDiscount (this w)))
                                              (this w))) x l)) /\
    Comparator_prefers (comparator (this w)) (fitness g') (fitness u) = Returned better /\
    Forall2 (fun old new =>
               exists (t : NDPSO Particle) (x : Ext),
                 new = fst (Particle_update t g old x))
            (swarm (this w)) s'.
Proof.
  intros (Hne & Hrec & Hcmp).
  set (t1 := set_inertia (fmul (inertia (this w)) (inertialDiscount (this w))) (this w)).
  set (w1 := mkWorld t1 (ext w) (log w)).
  destruct (updateParticles_spec (swarm t1) [] g w1 eq_refl)
    as (s' & x' & calls & Hupd & Hlen & Hcalls & Hall & news & Hnews & Heach).
  set (w2 := mkWorld (set_swarm s' t1) x'
                     (log w ++ map (fun t => EvParticleUpdate t g) calls)).
  destruct (getGlobalBest_returns w2) as (g' & Hg & Hin).
  { simpl. intros E. rewrite E in Hlen. simpl in Hlen.
    destruct (swarm (this w)); [congruence | discriminate]. }
  { exact Hrec. }
  destruct (Comparator_prefers_recognized (comparator (this w)) (fitness g') (fitness u))
    as (better & Hbetter & _).
  { rewrite Hcmp. exact Hrec. }
  exists g', better, s', (handleParticle (if better then g' else u) count x'), calls.
  split; [| split; [| split; [| split; [| split; [| split]]]]].
  - unfold iteration.
    rewrite (bind_returned _ _ w tt w1) by reflexivity.
    rewrite (bind_returned _ _ w1 t1 w1) by reflexivity.
    rewrite (bind_returned _ _ w1 tt w2) by exact Hupd.
    rewrite (bind_returned _ _ w2 g' w2) by exact Hg.
    rewrite (bind_returned _ _ w2 (this w2) w2) by reflexivity.
    rewrite (bind_returned _ _ w2 better w2)
      by (unfold liftOutcome; simpl; rewrite Hbetter; reflexivity).
    unfold bind, emit, extern, ret. simpl. rewrite <- app_assoc. reflexivity.
  - exact Hlen.
  - exact Hcalls.
  - exact Hin.
  - intros x l.
    pose proof (getGlobalBest_reads_this (mkWorld (set_swarm s' t1) x l) w2 eq_refl) as Hfst.
    pose proof (getGlobalBest_world (mkWorld (set_swarm s' t1) x l)) as Hsnd.
    rewrite Hg in Hfst. simpl in Hfst.
    destruct (getGlobalBest (mkWorld (set_swarm s' t1) x l)) as [o wx].
    simpl in Hfst, Hsnd. subst o wx. reflexivity.
  - exact Hbetter.
  - simpl in Hnews. subst news. exact Heach.
Qed.

(** X8. In one pass of the loop, on an optimizer that is set up, every
    particle is updated once and against the same global best, the one the
    pass started with, however the swarm changes meanwhile: the swarm the
    pass leaves is, particle by particle and in order, the update of the
    swarm it found. The new global best is selected after all the updates,
    from the updated swarm, and the listener is told once, the all-time
    best and the count, at the end. *)
Theorem iteration_snapshot count g u (w : World) :
  Ready w ->
  exists g' u' w' calls,
    iteration count (g, u) w = (Returned (g', u'), w') /\
    log w' = log w ++ map (fun t => EvParticleUpdate t g) calls
                 ++ [EvHandleParticle u' count] /\
    length calls = length (swarm (this w)) /\
    Forall2 (fun old new =>
               exists (t : NDPSO Particle) (x : Ext),
                 new = fst (Particle_update t g old x))
            (swarm (this w)) (swarm (this w')) /\
    fst (getGlobalBest w') = Returned g' /\
    (u' = g' \/ u' = u).
Proof.
  intros Hready.
  destruct (iteration_run count g u w Hready)
    as (g' & better & s' & x' & calls & Hrun & Hlen & Hcalls & _ & Hsel & _ & Heach).
  exists g', (if better then g' else u). eexists. exists calls.
  split; [exact Hrun |]. split; [reflexivity |]. split; [exact Hcalls |].
  split; [exact Heach |]. split.
  - rewrite Hsel. reflexivity.
  - destruct better; [left | right]; reflexivity.
Qed.

(** *** What the loop logs *)

Lemma sameParameters_trans (t1 t2 t3 : NDPSO Particle) :
  sameParameters t1 t2 -> sameParameters t2 t3 -> sameParameters t1 t3.
Proof.
  unfold sameParameters.
  intros (A1 & A2 & A3 & A4 & A5 & A6) (B1 & B2 & B3 & B4 & B5 & B6).
  repeat split; congruence.
Qed.

(** Whatever its outcome, the loop logs updates and reports only, and
    leaves the parameters alone. *)
Lemma iterations_loop_events n : forall count g u (w : World),
  Ready w ->
  exists evs,
    log (snd (iterations n count (g, u) w)) = log w ++ evs /\
    Forall (fun e => isLoopEvent e = true) evs /\
    sameParameters (this w) (this (snd (iterations n count (g, u) w))).
Proof.
  induction n as [|n IH]; intros count g u w Hready.
  - exists []. simpl. rewrite app_nil_r.
    split; [reflexivity |]. split; [constructor | repeat split].
  - destruct (iteration_run count g u w Hready)
      as (g1 & better & s1 & x1 & calls & Hrun1 & Hlen1 & _).
    match type of Hrun1 with _ = (_, ?w') => set (w1 := w') in * end.
    assert (Hready1 : Ready w1).
    { destruct Hready as (Hne & Hrec & Hcmp). repeat split; simpl; try assumption.
      intros E. rewrite E in Hlen1. destruct (swarm (this w)); [congruence | discriminate]. }
    assert (Hloop1 : Forall (fun e => isLoopEvent e = true)
                            (map (fun t => EvParticleUpdate t g) calls
                               ++ [EvHandleParticle (if better then g1 else u) count])).
    { apply Forall_app. split; [| repeat constructor].
      apply Forall_forall. intros e He. apply in_map_iff in He.
      destruct He as (t & Ht & _). subst e. reflexivity. }
    simpl iterations. rewrite (bind_returned _ _ _ _ _ Hrun1).
    destruct (Z.ltb_spec count INT_MAX) as [Hlt | Hge].
    + rewrite (bind_returned _ _ _ _ _ (increment_returned count w1 Hlt)).
      destruct (IH (count + 1) g1 (if better then g1 else u) w1 Hready1)
        as (evs2 & Hlog2 & Hall2 & Hsame2).
      exists ((map (fun t => EvParticleUpdate t g) calls
                 ++ [EvHandleParticle (if better then g1 else u) count]) ++ evs2).
      split; [| split].
      * rewrite Hlog2. simpl. rewrite <- !app_assoc. reflexivity.
      * apply Forall_app. split; [exact Hloop1 | exact Hall2].
      * eapply sameParameters_trans; [| exact Hsame2]. repeat split.
    + rewrite (bind_undefined _ _ _ _ (increment_overflow count w1 Hge)).
      exists (map (fun t => EvParticleUpdate t g) calls
                ++ [EvHandleParticle (if better then g1 else u) count]).
      split; [reflexivity |]. split; [exact Hloop1 | repeat split].
Qed.

(** After the setup, the world [optimize] leaves is the one its loop
    leaves, but for the reading of the clock. *)
Lemma optimize_log_from_iterations d (w w0 : World) g :
  initialSetup d w = (Returned g, w0) ->
  log (snd (optimize d w)) =
  log (snd (iterations (Z.to_nat (maxIterations (this w0))) 1 (g, g)
                       (mkWorld (set_inertia (initialInertia (this w0)) (this w0))
                                (snd (clock (ext w0))) (log w0)))) /\
  this (snd (optimize d w)) =
  this (snd (iterations (Z.to_nat (maxIterations (this w0))) 1 (g, g)
                        (mkWorld (set_inertia (initialInertia (this w0)) (this w0))
                                 (snd (clock (ext w0))) (log w0)))).
Proof.
  intros Hsetup.
  assert (H : exists x,
             snd (optimize d w) =
             mkWorld
               (this (snd (iterations (Z.to_nat (maxIterations (this w0))) 1 (g, g)
                             (mkWorld (set_inertia (initialInertia (this w0)) (this w0))
                                      (snd (clock (ext w0))) (log w0)))))
               x
               (log (snd (iterations (Z.to_nat (maxIterations (this w0))) 1 (g, g)
                            (mkWorld (set_inertia (initialInertia (this w0)) (this w0))
                                     (snd (clock (ext w0))) (log w0)))))).
  { unfold optimize.
    rewrite (bind_returned _ _ _ _ _ Hsetup).
    rewrite (bind_returned _ _ w0 tt
               (mkWorld (set_inertia (initialInertia (this w0)) (this w0))
                        (ext w0) (log w0))) by reflexivity.
    unfold bind at 1, externR. simpl.
    destruct (clock (ext w0)) as [begin xb]. simpl.
    unfold bind at 1, getThis. simpl.
    unfold bind at 1.
    destruct (iterations _ 1 (g, g) _) as [[best | what | |] w3];
      try (exists (ext w3); simpl; symmetry; apply world_eta).
    unfold bind, externR, getThis, ret. simpl.
    destruct (clock (ext w3)). eexists. reflexivity. }
  destruct H as (x & H). rewrite H. split; reflexivity.
Qed.

Lemma optimize_loop_events d (w w0 : World) g :
  initialSetup d w = (Returned g, w0) ->
  exists evs,
    log (snd (optimize d w)) = log w0 ++ evs /\
    Forall (fun e => isLoopEvent e = true) evs /\
    sameParameters (this w) (this (snd (optimize d w))).
Proof.
  intros Hsetup.
  destruct (initialSetup_ready d w w0 g Hsetup) as (Hready & Hthis & _).
  destruct (optimize_log_from_iterations d w w0 g Hsetup) as (Hlog & Hfinal).
  rewrite Hlog, Hfinal.
  destruct (iterations_loop_events (Z.to_nat (maxIterations (this w0))) 1 g g
              (mkWorld (set_inertia (initialInertia (this w0)) (this w0))
                       (snd (clock (ext w0))) (log w0)))
    as (evs & Hevs & Hall & Hsame).
  { destruct Hready as (H1 & H2 & H3). repeat split; assumption. }
  exists evs. split; [exact Hevs |]. split; [exact Hall |].
  eapply sameParameters_trans; [| exact Hsame].
  cbn [this]. rewrite Hthis. repeat split.
Qed.

(** The string of [getJSONParameters] depends on the six parameters only. *)
Lemma getJSONParameters_same (to_string_float : float -> string)
      (to_string_int : Z -> string) (t t' : NDPSO Particle) :
  sameParameters t t' ->
  getJSONParameters to_string_float to_string_int t'
  = getJSONParameters to_string_float to_string_int t.
Proof.
  intros (H1 & H2 & H3 & H4 & H5 & H6). unfold getJSONParameters.
  rewrite H1, H2, H3, H4, H5, H6. reflexivity.
Qed.

(** X4. The parameters logged by [getJSONParameters] are the same before
    and after a call of [optimize], whatever the outcome of the call and
    however the number formatting works: the string is built from the
    initial inertia, never from the one the loop discounts. *)
Theorem getJSONParameters_stable (to_string_float : float -> string)
        (to_string_int : Z -> string) (d : ProblemData) (w : World) :
  getJSONParameters to_string_float to_string_int (this (snd (optimize d w)))
  = getJSONParameters to_string_float to_string_int (this w).
Proof.
  apply getJSONParameters_same.
  destruct (initialSetup_spec d w) as (ps & x0 & Hinit & Hps).
  match type of Hinit with _ = getGlobalBest ?W => set (w0 := W) in * end.
  destruct (getGlobalBest w0) as [o w0'] eqn:Hsel.
  assert (Hw0 : w0' = w0).
  { rewrite <- (getGlobalBest_world w0), Hsel. reflexivity. }
  subst w0'.
  destruct o as [g | what | |].
  - destruct (optimize_loop_events d w w0 g Hinit) as (evs & _ & _ & Hsame).
    exact Hsame.
  - unfold optimize. rewrite (bind_thrown _ _ _ _ _ Hinit). repeat split.
  - unfold optimize. rewrite (bind_undefined _ _ _ _ Hinit). repeat split.
  - unfold optimize. rewrite (bind_outOfFuel _ _ _ _ Hinit). repeat split.
Qed.

Lemma flat_map_loop_events {V} (f : Event Particle -> list V) evs :
  (forall e, isLoopEvent e = true -> f e = []) ->
  Forall (fun e => isLoopEvent e = true) evs ->
  flat_map f evs = [].
Proof.
  intros Hf. induction 1 as [|e evs He _ IH]; [reflexivity |].
  simpl. rewrite (Hf e He), IH. reflexivity.
Qed.

Lemma constructions_news nd pf n :
  constructions (repeat (@EvParticleNew Particle nd pf) n) = repeat (nd, pf) n.
Proof. induction n as [|n IH]; [reflexivity |]. simpl. f_equal. exact IH. Qed.

(** X9. Every call of [optimize], whatever its outcome and whatever problem
    the optimizer held before, constructs [max swarmSize 0] particles and
    constructs them for the problem it is called with: each with the
    [numFacilities] and [numCustomers] of the new problem. All of them are
    constructed in the setup, none during the iterations. *)
Theorem optimize_constructs_for_its_problem d (w : World) :
  exists evs,
    log (snd (optimize d w)) = log w ++ evs /\
    constructions evs =
    repeat (numFacilities d, numCustomers d) (Z.to_nat (swarmSize (this w))).
Proof.
  destruct (initialSetup_spec d w) as (ps & x0 & Hinit & _).
  match type of Hinit with _ = getGlobalBest ?W => set (w0 := W) in * end.
  destruct (getGlobalBest w0) as [o w0'] eqn:Hsel.
  assert (Hw0 : w0' = w0).
  { rewrite <- (getGlobalBest_world w0), Hsel. reflexivity. }
  subst w0'.
  assert (Hfail : isReturned o = false ->
                  exists evs,
                    log (snd (optimize d w)) = log w ++ evs /\
                    constructions evs =
                    repeat (numFacilities d, numCustomers d)
                           (Z.to_nat (swarmSize (this w)))).
  { intros Ho. unfold optimize.
    match goal with
    | |- context [bind (initialSetup d) ?k w] =>
        destruct (bind_not_returned (initialSetup d) k w) as (_ & H2);
          [rewrite Hinit; exact Ho |]
    end.
    rewrite H2, Hinit. simpl.
    eexists. split; [reflexivity |].
    change (constructions (EvOptimize d :: ?l)) with (constructions l).
    apply constructions_news. }
  destruct o as [g | what | |]; try (apply Hfail; reflexivity).
  destruct (optimize_loop_events d w w0 g Hinit) as (evs & Hlog & Hall & _).
  rewrite Hlog. simpl.
  eexists. split; [rewrite <- app_assoc; reflexivity |].
  change (constructions (EvOptimize d :: ?l)) with (constructions l).
  unfold constructions. rewrite flat_map_app.
  rewrite (flat_map_loop_events _ evs); [| | exact Hall].
  - rewrite app_nil_r. apply constructions_news.
  - intros [] He; try discriminate; reflexivity.
Qed.

(** *** The result against the swarm *)

(** What the selection returns is extremal in the swarm. *)
Lemma selected_is_extremal (w w' : World) g :
  MINIMIZE <> MAXIMIZE ->
  getGlobalBest w = (Returned g, w') ->
  (objType (data (this w)) = MINIMIZE ->
   forall q, In q (swarm (this w)) -> fitness g <= fitness q) /\
  (objType (data (this w)) = MAXIMIZE ->
   forall q, In q (swarm (this w)) -> fitness q <= fitness g).
Proof.
  intros Hd Hsel.
  destruct (getGlobalBest_returned_inv _ _ _ Hsel) as (_ & Hne & _).
  split; intros Hdir q Hq.
  - rewrite getGlobalBest_MINIMIZE in Hsel by exact Hdir.
    destruct (min_element_first _ Hne) as (p & Hnth & Hall & _).
    unfold deref in Hsel. rewrite Hnth in Hsel.
    assert (p = g) by (unfold ret in Hsel; congruence). subst p.
    apply Hall. exact Hq.
  - rewrite getGlobalBest_MAXIMIZE in Hsel by assumption.
    destruct (max_element_first _ Hne) as (p & Hnth & Hall & _).
    unfold deref in Hsel. rewrite Hnth in Hsel.
    assert (p = g) by (unfold ret in Hsel; congruence). subst p.
    apply Hall. exact Hq.
Qed.

(** After the comparison of an iteration, the all-time best is at least as
    good as the global best it was compared with. *)
Lemma prefers_keeps_best (c : Comparator) (a b : Z) better :
  MINIMIZE <> MAXIMIZE ->
  Comparator_prefers c a b = Returned better ->
  (cmpType c = MINIMIZE -> (if better then a else b) <= a) /\
  (cmpType c = MAXIMIZE -> a <= (if better then a else b)).
Proof.
  intros Hd Hp. unfold Comparator_prefers in Hp. split; intros Hdir.
  - rewrite Hdir, Z.eqb_refl in Hp. injection Hp as Hp. subst better.
    destruct (Z.ltb_spec a b); lia.
  - rewrite Hdir in Hp.
    destruct (Z.eqb_spec MAXIMIZE MINIMIZE) as [E | _]; [congruence |].
    rewrite Z.eqb_refl, Z.gtb_ltb in Hp. injection Hp as Hp. subst better.
    destruct (Z.ltb_spec b a); lia.
Qed.

Lemma iterations_best_of_swarm n : forall count g u (w : World),
  MINIMIZE <> MAXIMIZE ->
  Ready w ->
  bestOfSwarm_inv w u ->
  count + Z.of_nat n <= INT_MAX ->
  exists g' u' w',
    iterations n count (g, u) w = (Returned (g', u'), w') /\
    data (this w') = data (this w) /\
    bestOfSwarm_inv w' u'.
Proof.
  induction n as [|n IH]; intros count g u w Hd Hready Hinv Hbound.
  - exists g, u, w. repeat split; apply Hinv.
  - destruct (iteration_run count g u w Hready)
      as (g1 & better & s1 & x1 & calls & Hrun1 & Hlen1 & _ & _ & Hsel & Hbetter & _).
    match type of Hrun1 with _ = (_, ?w') => set (w1 := w') in * end.
    assert (Hready1 : Ready w1).
    { destruct Hready as (Hne & Hrec & Hcmp). repeat split; simpl; try assumption.
      intros E. rewrite E in Hlen1. destruct (swarm (this w)); [congruence | discriminate]. }
    assert (Hinv1 : bestOfSwarm_inv w1 (if better then g1 else u)).
    { destruct Hready as (_ & _ & Hcmp).
      destruct (selected_is_extremal _ _ _ Hd (Hsel (ext w1) (log w1))) as (Hmin & Hmax).
      destruct (prefers_keeps_best _ _ _ _ Hd Hbetter) as (Kmin & Kmax).
      split; intros Hdir p Hp.
      - specialize (Hmin Hdir p Hp).
        assert (cmpType (comparator (this w)) = MINIMIZE) as E
            by (rewrite Hcmp; exact Hdir).
        specialize (Kmin E). destruct better; lia.
      - specialize (Hmax Hdir p Hp).
        assert (cmpType (comparator (this w)) = MAXIMIZE) as E
            by (rewrite Hcmp; exact Hdir).
        specialize (Kmax E). destruct better; lia. }
    destruct (IH (count + 1) g1 (if better then g1 else u) w1 Hd Hready1 Hinv1)
      as (g' & u' & w' & Hrun2 & Hdata2 & Hinv2); [lia |].
    exists g', u', w'. split; [| split].
    + rewrite (iterations_S _ _ _ _ _ _ Hrun1) by lia. exact Hrun2.
    + rewrite Hdata2. reflexivity.
    + exact Hinv2.
Qed.

Lemma optimize_from_iterations d (w w0 : World) g best w3 :
  initialSetup d w = (Returned g, w0) ->
  iterations (Z.to_nat (maxIterations (this w0))) 1 (g, g)
             (mkWorld (set_inertia (initialInertia (this w0)) (this w0))
                      (snd (clock (ext w0))) (log w0))
  = (Returned best, w3) ->
  exists r x,
    optimize d w = (Returned r, mkWorld (this w3) x (log w3)) /\
    r_fitness r = fitness (snd best) /\
    r_position r = position (snd best).
Proof.
  intros Hsetup Hloop. unfold optimize.
  rewrite (bind_returned _ _ _ _ _ Hsetup).
  rewrite (bind_returned _ _ w0 tt
             (mkWorld (set_inertia (initialInertia (this w0)) (this w0))
                      (ext w0) (log w0))) by reflexivity.
  unfold bind at 1, externR. simpl.
  destruct (clock (ext w0)) as [begin xb]. simpl in *.
  unfold bind at 1, getThis. simpl.
  rewrite (bind_returned _ _ _ _ _ Hloop).
  unfold bind, externR, getThis, ret. simpl.
  destruct (clock (ext w3)) as [now xe].
  eexists. eexists. split; [reflexivity |]. split; reflexivity.
Qed.

(** What the selection returns is the first extremal particle. *)
Lemma selected_first_extremal (w w' : World) g :
  MINIMIZE <> MAXIMIZE ->
  getGlobalBest w = (Returned g, w') ->
  (objType (data (this w)) = MINIMIZE ->
   exists i, firstMinimalAt (swarm (this w)) i g) /\
  (objType (data (this w)) = MAXIMIZE ->
   exists i, firstMaximalAt (swarm (this w)) i g).
Proof.
  intros Hd Hsel.
  destruct (getGlobalBest_returned_inv _ _ _ Hsel) as (_ & Hne & _).
  split; intros Hdir.
  - rewrite getGlobalBest_MINIMIZE in Hsel by exact Hdir.
    destruct (min_element_first _ Hne) as (p & Hp).
    pose proof Hp as (Hnth & _).
    unfold deref in Hsel. rewrite Hnth in Hsel.
    assert (p = g) by (unfold ret in Hsel; congruence). subst p.
    eexists. exact Hp.
  - rewrite getGlobalBest_MAXIMIZE in Hsel by assumption.
    destruct (max_element_first _ Hne) as (p & Hp).
    pose proof Hp as (Hnth & _).
    unfold deref in Hsel. rewrite Hnth in Hsel.
    assert (p = g) by (unfold ret in Hsel; congruence). subst p.
    eexists. exact Hp.
Qed.

(** A run past its setup, and its all-time best: the particle the results
    are built from is the one last handed to the listener, and it is at
    least as good as the swarm the run started from and as the swarm it
    leaves. *)
Lemma optimize_best d (w w0 : World) g :
  MINIMIZE <> MAXIMIZE ->
  initialSetup d w = (Returned g, w0) ->
  maxIterations (this w) < INT_MAX ->
  exists r w' evs u,
    optimize d w = (Returned r, w') /\
    log w' = log w0 ++ evs /\
    last (reported evs) g = u /\
    r = mkProblemResults (r_time r) (fitness u) (position u)
                         (AssignmentStrategy_assign (costs d) (position u) (type d))
                         (type d) (objType d) /\
    data (this w') = d /\
    bestOfSwarm_inv w' u /\
    (objType d = MINIMIZE ->
     forall p, In p (swarm (this w0)) -> fitness u <= fitness p) /\
    (objType d = MAXIMIZE ->
     forall p, In p (swarm (this w0)) -> fitness p <= fitness u).
Proof.
  intros Hd Hsetup Hbound.
  destruct (initialSetup_selects d w w0 g Hsetup) as (Hsel & Hdata).
  destruct (selected_is_extremal _ _ _ Hd Hsel) as (Hmin0 & Hmax0).
  rewrite Hdata in Hmin0, Hmax0.
  destruct (optimize_after_setup d w w0 g Hsetup Hbound)
    as (r & s' & x' & evs & u & Hrun & _ & Hthis & _ & _ & Hready & _ & _ & Hr
        & Hsorted & _ & Hlast & _ & Hrep).
  set (w2 := mkWorld (set_inertia (initialInertia (this w0)) (this w0))
                     (snd (clock (ext w0))) (log w0)).
  assert (Hready2 : Ready w2).
  { destruct Hready as (H1 & H2 & H3). repeat split; assumption. }
  assert (Hinv2 : bestOfSwarm_inv w2 g).
  { split; simpl; rewrite Hdata; assumption. }
  assert (Hmax0' : maxIterations (this w0) = maxIterations (this w))
    by (rewrite Hthis; reflexivity).
  destruct (iterations_best_of_swarm (Z.to_nat (maxIterations (this w0))) 1 g g w2
                                     Hd Hready2 Hinv2)
    as (g' & u' & w3 & Hloop & Hdata3 & Hinv3).
  { rewrite Hmax0'. unfold INT_MAX in *. lia. }
  destruct (optimize_from_iterations d w w0 g (g', u') w3 Hsetup Hloop)
    as (r' & x & Hrun' & Hfit' & _).
  match type of Hrun with _ = (_, ?W) => set (wf := W) in * end.
  assert (Hsame : this wf = this w3).
  { rewrite Hrun in Hrun'. injection Hrun' as _ Hthis' _ _. exact Hthis'. }
  assert (Hr' : r' = r) by congruence. subst r'.
  assert (Hfit : fitness u' = fitness u).
  { simpl in Hfit'. rewrite <- Hfit', Hr. reflexivity. }
  assert (Hinvf : bestOfSwarm_inv wf u).
  { destruct Hinv3 as (Hmin3 & Hmax3). unfold bestOfSwarm_inv.
    rewrite Hsame. split; intros Hdir p Hp; rewrite <- Hfit.
    - apply (Hmin3 Hdir p Hp).
    - apply (Hmax3 Hdir p Hp). }
  exists r, wf, evs, u.
  split; [exact Hrun |]. split; [reflexivity |]. split; [exact Hrep |].
  split; [exact Hr |]. split.
  { rewrite Hsame. simpl in Hdata3. rewrite Hdata3. exact Hdata. }
  split; [exact Hinvf |].
  split; intros Hdir p Hp.
  - rewrite Hdir in Hsorted.
    apply (Sorted_weaken _ Z.ge) in Hsorted; [| apply neverWorse_MINIMIZE].
    apply Sorted_ge_last in Hsorted.
    specialize (Hmin0 Hdir p Hp). lia.
  - rewrite Hdir in Hsorted.
    apply (Sorted_weaken _ Z.le) in Hsorted;
      [| intros a b; apply neverWorse_MAXIMIZE; exact Hd].
    apply Sorted_le_last in Hsorted.
    specialize (Hmax0 Hdir p Hp). lia.
Qed.

(** A run that returns went past its setup, and its loop came to its
    end. *)
Lemma optimize_returned_inv d (w w' : World) r :
  optimize d w = (Returned r, w') ->
  maxIterations (this w) < INT_MAX /\
  exists g w0, initialSetup d w = (Returned g, w0).
Proof.
  intros Hrun. pose proof Hrun as Hinv. unfold optimize in Hinv.
  apply bind_inv in Hinv. destruct Hinv as (g & w0 & Hsetup & _).
  split; [| exists g, w0; exact Hsetup].
  destruct (Z.ltb_spec (maxIterations (this w)) INT_MAX) as [Hlt | Hge]; [exact Hlt |].
  exfalso.
  destruct (initialSetup_ready d w w0 g Hsetup) as (Hready & Hthis & _).
  assert (Hundef : fst (optimize d w) = Undefined).
  { apply (optimize_undefined_loop d w w0 g Hsetup).
    apply iterations_overflow.
    - destruct Hready as (H1 & H2 & H3). repeat split; assumption.
    - unfold INT_MAX. lia.
    - assert (Hmax : maxIterations (this w0) = maxIterations (this w))
        by (rewrite Hthis; reflexivity).
      rewrite Hmax. unfold INT_MAX in *. lia. }
  rewrite Hrun in Hundef. discriminate.
Qed.

(** C4. For every run of [optimize] that completes, the customer
    assignments of the results are the assignment strategy's answer for the
    position of the all-time best, on the costs and the type of the
    problem. The all-time best is the particle last handed to the listener
    (the first global best when no iteration ran); it is at least as good
    as every particle of the swarm the run leaves, and the fitness and the
    position of the results are its own. *)
Theorem optimize_assignments_recomputed d (w w' : World) r :
  MINIMIZE <> MAXIMIZE ->
  optimize d w = (Returned r, w') ->
  exists g w0 evs uBest,
    initialSetup d w = (Returned g, w0) /\
    log w' = log w0 ++ evs /\
    uBest = last (reported evs) g /\
    bestOfSwarm_inv w' uBest /\
    r_fitness r = fitness uBest /\
    r_position r = position uBest /\
    r_customerAssignments r =
    AssignmentStrategy_assign (costs d) (position uBest) (type d) /\
    r_customerAssignments r = Particle_getCustomerAssignments (this w') uBest.
Proof.
  intros Hd Hret.
  destruct (optimize_returned_inv d w w' r Hret) as (Hbound & g & w0 & Hsetup).
  destruct (optimize_best d w w0 g Hd Hsetup Hbound)
    as (r' & w'' & evs & u & Hrun & Hlog & Hrep & Hr & Hdata & Hinv & _).
  rewrite Hret in Hrun. injection Hrun as Hr' Hw'. subst r' w''.
  exists g, w0, evs, u.
  split; [exact Hsetup |]. split; [exact Hlog |].
  split; [symmetry; exact Hrep |]. split; [exact Hinv |].
  unfold Particle_getCustomerAssignments. rewrite Hdata, Hr. simpl.
  repeat split.
Qed.

(** C9 (as the code has it). With [maxIterations = 0], on a problem with a
    recognized [objType] and with a positive swarm size, [optimize] returns
    and the loop body never runs: the call logs its own entry and the
    constructions of the [swarmSize] particles, and nothing else. The
    results carry the fitness, the position and the customer assignments of
    the global best selected right after the swarm was initialized, which
    is the first particle of minimal fitness of the swarm under MINIMIZE,
    of maximal fitness under MAXIMIZE; the swarm is left as it was
    initialized. *)
Theorem optimize_zero_iterations d (w : World) :
  MINIMIZE <> MAXIMIZE ->
  recognized (objType d) ->
  0 < swarmSize (this w) ->
  maxIterations (this w) = 0 ->
  exists r w' g,
    optimize d w = (Returned r, w') /\
    log w' = log w ++ EvOptimize d
                 :: repeat (EvParticleNew (numFacilities d) (numCustomers d))
                           (Z.to_nat (swarmSize (this w))) /\
    length (swarm (this w')) = Z.to_nat (swarmSize (this w)) /\
    (objType d = MINIMIZE -> exists i, firstMinimalAt (swarm (this w')) i g) /\
    (objType d = MAXIMIZE -> exists i, firstMaximalAt (swarm (this w')) i g) /\
    r_fitness r = fitness g /\
    r_position r = position g /\
    r_customerAssignments r = Particle_getCustomerAssignments (this w') g /\
    r_customerAssignments r =
    AssignmentStrategy_assign (costs d) (position g) (type d).
Proof.
  intros Hd Hrec Hpos Hzero.
  destruct (initialSetup_returns d w Hrec Hpos) as (g & w0 & Hsetup).
  destruct (initialSetup_selects d w w0 g Hsetup) as (Hsel & Hdata).
  destruct (selected_first_extremal _ _ _ Hd Hsel) as (Hmin & Hmax).
  rewrite Hdata in Hmin, Hmax.
  assert (Hbound : maxIterations (this w) < INT_MAX) by (unfold INT_MAX; lia).
  destruct (optimize_after_setup d w w0 g Hsetup Hbound)
    as (r & s' & x' & evs & u & Hrun & _ & Hthis & Hsz & Hlog0 & _ & _ & _ & Hr
        & _ & _ & _ & Hnone & _).
  rewrite Hzero in Hnone. destruct (Hnone eq_refl) as (Hu & Hevs & Hs').
  subst u evs s'. clear Hnone.
  eexists r, _, g. split; [exact Hrun |]. cbn [log this].
  rewrite app_nil_r.
  split; [exact Hlog0 |].
  replace (swarm (set_swarm (swarm (this w0)) _)) with (swarm (this w0))
    by reflexivity.
  split; [exact Hsz |]. split; [exact Hmin |]. split; [exact Hmax |].
  unfold Particle_getCustomerAssignments. rewrite Hr. simpl. rewrite Hthis.
  repeat split.
Qed.

(** X6. A run past its setup, with [maxIterations] below the largest
    [int], returns, and never does worse than the swarm it started from nor
    than the swarm it leaves: under MINIMIZE the fitness returned is at most
    the fitness of every particle of the freshly initialized swarm and of
    every particle of the final swarm, under MAXIMIZE at least. *)
Theorem optimize_beats_the_swarm d (w w0 : World) g :
  MINIMIZE <> MAXIMIZE ->
  initialSetup d w = (Returned g, w0) ->
  maxIterations (this w) < INT_MAX ->
  exists r w',
    optimize d w = (Returned r, w') /\
    (objType d = MINIMIZE ->
     forall p, In p (swarm (this w0)) \/ In p (swarm (this w')) ->
               r_fitness r <= fitness p) /\
    (objType d = MAXIMIZE ->
     forall p, In p (swarm (this w0)) \/ In p (swarm (this w')) ->
               fitness p <= r_fitness r).
Proof.
  intros Hd Hsetup Hbound.
  destruct (optimize_best d w w0 g Hd Hsetup Hbound)
    as (r & w' & evs & u & Hrun & _ & _ & Hr & Hdata & (Hminf & Hmaxf) & Hmin0 & Hmax0).
  rewrite Hdata in Hminf, Hmaxf.
  exists r, w'. split; [exact Hrun |].
  rewrite Hr. simpl.
  split; intros Hdir p [Hp | Hp]; auto.
Qed.

(** *** The sweep, as the listener sees it *)

Lemma protocolTrace_app (a b : list (Event Particle)) :
  protocolTrace (a ++ b) = protocolTrace a ++ protocolTrace b.
Proof. apply flat_map_app. Qed.

Lemma protocolTrace_news nd pf n :
  protocolTrace (repeat (@EvParticleNew Particle nd pf) n) = [].
Proof. induction n; [reflexivity | exact IHn]. Qed.

Lemma trialTrace_app (a b : list (Event Particle)) :
  trialTrace (a ++ b) = trialTrace a ++ trialTrace b.
Proof. apply flat_map_app. Qed.

Lemma trialTrace_news nd pf n :
  trialTrace (repeat (@EvParticleNew Particle nd pf) n) = [].
Proof. induction n; [reflexivity | exact IHn]. Qed.

(** A trial that returns is one call of [optimize], and tells the listener
    nothing of the protocol. *)
Lemma optimize_quiet d (w : World) :
  recognized (objType d) ->
  Runnable w ->
  exists r w' evs,
    optimize d w = (Returned r, w') /\
    Runnable w' /\
    log w' = log w ++ evs /\
    trialTrace evs = [Optimized d].
Proof.
  intros Hrec (Hpos & Hbound).
  destruct (initialSetup_returns d w Hrec Hpos) as (g & w0 & Hsetup).
  destruct (optimize_after_setup d w w0 g Hsetup Hbound)
    as (r & s' & x' & evs & u & Hrun & _ & Hthis & _ & Hlog0 & _).
  destruct (optimize_loop_events d w w0 g Hsetup) as (evs' & Hlog & Hall & _).
  rewrite Hrun in Hlog. simpl in Hlog.
  exists r. eexists.
  exists (EvOptimize d
            :: repeat (EvParticleNew (numFacilities d) (numCustomers d))
                      (Z.to_nat (swarmSize (this w))) ++ evs').
  split; [exact Hrun |]. split; [| split].
  - unfold Runnable. cbn [this]. rewrite Hthis. split; assumption.
  - simpl. rewrite Hlog, Hlog0, <- app_assoc. reflexivity.
  - change (trialTrace (EvOptimize d :: ?l)) with (Optimized d :: trialTrace l).
    rewrite trialTrace_app, trialTrace_news. f_equal.
    apply flat_map_loop_events; [| exact Hall].
    intros [] He; try discriminate; reflexivity.
Qed.

Lemma trials_protocol d n : forall done (w : World),
  recognized (objType d) ->
  Runnable w ->
  exists w' evs,
    trials n d done w = (Returned (done + Z.of_nat n), w') /\
    Runnable w' /\
    log w' = log w ++ evs /\
    trialTrace evs = concat (repeat [Announced; Optimized d; Delivered] n).
Proof.
  induction n as [|n IH]; intros done w Hrec Hpos.
  - exists w, []. simpl. rewrite Z.add_0_r, app_nil_r.
    split; [reflexivity |]. split; [exact Hpos |]. split; reflexivity.
  - set (w1 := mkWorld (this w) (handleAlgorithm (this w) (name d) (type d) (objType d) (ext w))
                       (log w ++ [EvHandleAlgorithm (this w)])).
    destruct (optimize_quiet d w1 Hrec Hpos) as (r & w2 & evs2 & Hrun & Hsz2 & Hlog2 & Hp2).
    set (w3 := mkWorld (this w2) (handleResults r (ext w2)) (log w2 ++ [EvHandleResults r])).
    destruct (IH (done + 1) w3 Hrec) as (w' & evs3 & Hrest & Hsz3 & Hlog3 & Hp3).
    { exact Hsz2. }
    exists w', (EvHandleAlgorithm (this w) :: evs2 ++ EvHandleResults r :: evs3).
    split; [| split; [| split]].
    + simpl trials.
      rewrite (bind_returned _ _ w (this w) w) by reflexivity.
      rewrite (bind_returned _ _ w tt (mkWorld (this w) (ext w)
                                               (log w ++ [EvHandleAlgorithm (this w)])))
        by reflexivity.
      rewrite (bind_returned _ _ _ tt w1) by reflexivity.
      rewrite (bind_returned _ _ _ _ _ Hrun).
      rewrite (bind_returned _ _ w2 tt (mkWorld (this w2) (ext w2)
                                                (log w2 ++ [EvHandleResults r])))
        by reflexivity.
      rewrite (bind_returned _ _ _ tt w3) by reflexivity.
      rewrite Hrest. f_equal. f_equal. lia.
    + exact Hsz3.
    + rewrite Hlog3. simpl. rewrite Hlog2. simpl.
      rewrite <- !app_assoc. reflexivity.
    + change (trialTrace (EvHandleAlgorithm (this w) :: ?l))
        with (Announced :: trialTrace l).
      rewrite trialTrace_app, Hp2.
      change (trialTrace (EvHandleResults r :: evs3)) with (Delivered :: trialTrace evs3).
      rewrite Hp3. reflexivity.
Qed.

Lemma for_float_yields {V} (view : Event Particle -> list V) body step T cs :
  forall c fuel,
    bodyYields view body step T ->
    visits cs c ->
    (length cs < fuel)%nat ->
    forall done (w : World),
      Runnable w ->
      exists w' evs,
        for_float fuel c body done w
        = (Returned (done + step * Z.of_nat (length cs)), w') /\
        Runnable w' /\
        log w' = log w ++ evs /\
        flat_map view evs = loopView T step cs done.
Proof.
  induction cs as [|c' cs IH]; intros c fuel Hbody Hvis Hfuel done w Hpos.
  - destruct fuel as [|fuel]; [simpl in Hfuel; lia |].
    simpl in Hvis. simpl. rewrite Hvis.
    exists w, []. rewrite app_nil_r, Z.mul_0_r, Z.add_0_r.
    split; [reflexivity |]. split; [exact Hpos |]. split; reflexivity.
  - destruct fuel as [|fuel]; [simpl in Hfuel; lia |].
    destruct Hvis as (Hc & Hcond & Hrest). subst c'.
    destruct (Hbody c done w Hpos) as (w1 & evs1 & Hrun1 & Hpos1 & Hlog1 & Hv1).
    destruct (IH (sweep_step c) fuel Hbody Hrest) with (done := done + step) (w := w1)
      as (w' & evs2 & Hrun2 & Hpos2 & Hlog2 & Hv2).
    { simpl in Hfuel. lia. }
    { exact Hpos1. }
    exists w', (evs1 ++ evs2). simpl for_float. rewrite Hcond.
    rewrite (bind_returned _ _ _ _ _ Hrun1), Hrun2.
    split; [| split; [| split]].
    + f_equal. f_equal. simpl length. lia.
    + exact Hpos2.
    + rewrite Hlog2, Hlog1, <- app_assoc. reflexivity.
    + rewrite flat_map_app, Hv1, Hv2. reflexivity.
Qed.

Lemma grid_length : Z.of_nat (length grid) = 5.
Proof. reflexivity. Qed.

Lemma for_float_grid_yields {V} (view : Event Particle -> list V) fuel body step T :
  (6 <= fuel)%nat ->
  bodyYields view body step T ->
  forall done (w : World),
    Runnable w ->
    exists w' evs,
      for_float fuel sweep_start body done w = (Returned (done + step * 5), w') /\
      Runnable w' /\
      log w' = log w ++ evs /\
      flat_map view evs = loopView T step grid done.
Proof.
  intros Hfuel Hbody done w Hpos. rewrite <- grid_length.
  apply for_float_yields.
  - exact Hbody.
  - exact visits_grid.
  - simpl. lia.
  - exact Hpos.
Qed.

Lemma expectedTrials_unfolds d :
  loopView (fun _ done1 =>
              loopView (fun _ done2 =>
                          loopView (fun _ done3 => trialBlock d done3) 10 grid done2)
                       (10 * 5) grid done1)
           (10 * 5 * 5) grid 0
  = expectedTrials d.
Proof. vm_compute. reflexivity. Qed.

Lemma searchParameters_protocol_spec fuel d (w : World) :
  (6 <= fuel)%nat ->
  recognized (objType d) ->
  Runnable w ->
  exists w' evs,
    searchParameters fuel d w = (Returned tt, w') /\
    log w' = log w ++ evs /\
    trialTrace evs = expectedTrials d.
Proof.
  intros Hfuel Hrec Hpos. unfold searchParameters.
  rewrite <- (expectedTrials_unfolds d).
  match goal with
  | |- context [for_float fuel sweep_start ?body 0] =>
      destruct (for_float_grid_yields trialStep fuel body (10 * 5 * 5)
                  (fun _ done1 =>
                     loopView (fun _ done2 =>
                                 loopView (fun _ done3 => trialBlock d done3) 10 grid done2)
                              (10 * 5) grid done1) Hfuel)
        with (done := 0) (w := w)
        as (w' & evs & Hrun & _ & Hlog & Hv)
  end.
  - (* the outer body *)
    intros c1 done1 w1 Hpos1.
    set (w1' := mkWorld (set_initialInertia c1 (set_inertia c1 (this w1))) (ext w1)
                        (log w1 ++ [EvSetInertia c1])).
    match goal with
    | |- context [for_float fuel sweep_start ?body done1] =>
        destruct (for_float_grid_yields trialStep fuel body (10 * 5)
                    (fun _ done2 =>
                       loopView (fun _ done3 => trialBlock d done3) 10 grid done2) Hfuel)
          with (done := done1) (w := w1')
          as (w2 & evs2 & Hrun2 & Hpos2 & Hlog2 & Hv2)
    end.
    + (* the middle body *)
      intros c2 done2 w2 Hpos2.
      set (w2' := mkWorld (set_cognitive c2 (this w2)) (ext w2)
                          (log w2 ++ [EvSetCognitive c2])).
      match goal with
      | |- context [for_float fuel sweep_start ?body done2] =>
          destruct (for_float_grid_yields trialStep fuel body 10
                      (fun _ done3 => trialBlock d done3) Hfuel)
            with (done := done2) (w := w2')
            as (w3 & evs3 & Hrun3 & Hpos3 & Hlog3 & Hv3)
      end.
      * (* the inner body *)
        intros c3 done3 w3 Hpos3.
        set (w3' := mkWorld (set_social c3 (this w3)) (ext w3)
                            (log w3 ++ [EvSetSocial c3])).
        destruct (trials_protocol d 10 done3 w3' Hrec Hpos3)
          as (w4 & evs4 & Hrun4 & Hsz4 & Hlog4 & Hp4).
        exists (mkWorld (this w4) (cout_done (done3 + 10) (ext w4))
                        (log w4 ++ [EvDone (done3 + 10)])),
               (EvSetSocial c3 :: evs4 ++ [EvDone (done3 + 10)]).
        split; [| split; [| split]].
        -- unfold setSocial.
           rewrite (bind_returned _ _ w3 tt w3') by reflexivity.
           rewrite (bind_returned _ _ _ _ _ Hrun4). reflexivity.
        -- exact Hsz4.
        -- simpl. rewrite Hlog4. simpl. rewrite <- !app_assoc. reflexivity.
        -- change (flat_map trialStep (EvSetSocial c3 :: ?l)) with (trialTrace l).
           rewrite trialTrace_app, Hp4. reflexivity.
      * exact Hpos2.
      * exists w3, (EvSetCognitive c2 :: evs3).
        split; [| split; [| split]].
        -- unfold setCognitive.
           rewrite (bind_returned _ _ w2 tt w2') by reflexivity.
           exact Hrun3.
        -- exact Hpos3.
        -- rewrite Hlog3. simpl. rewrite <- app_assoc. reflexivity.
        -- exact Hv3.
    + exact Hpos1.
    + exists w2, (EvSetInertia c1 :: evs2).
      split; [| split; [| split]].
      * unfold setInertia.
        rewrite (bind_returned _ _ w1 tt w1') by reflexivity.
        exact Hrun2.
      * exact Hpos2.
      * rewrite Hlog2. simpl. rewrite <- app_assoc. reflexivity.
      * exact Hv2.
  - exact Hpos.
  - exists w', evs. rewrite (bind_returned _ _ _ _ _ Hrun).
    split; [reflexivity |]. split; [exact Hlog | exact Hv].
Qed.

(** X10. For a problem with a recognized [objType], on an optimizer with
    a positive swarm size and [maxIterations] below the largest [int], the
    sweep follows its protocol to the end: each of the 1250 trials is
    announced to the listener, then [optimize] is called on the problem,
    then the results are delivered to the listener, and after every tenth
    trial the count of completed trials is printed: 10, 20, and so on up
    to 1250. *)
Theorem searchParameters_protocol fuel d (w : World) :
  (6 <= fuel)%nat ->
  recognized (objType d) ->
  0 < swarmSize (this w) ->
  maxIterations (this w) < INT_MAX ->
  exists w' evs,
    searchParameters fuel d w = (Returned tt, w') /\
    log w' = log w ++ evs /\
    trialTrace evs = expectedTrials d /\
    last (trialTrace evs) Announced = Printed 1250.
Proof.
  intros Hfuel Hrec Hpos Hbound.
  destruct (searchParameters_protocol_spec fuel d w Hfuel Hrec (conj Hpos Hbound))
    as (w' & evs & Hrun & Hlog & Hp).
  exists w', evs. rewrite Hp.
  split; [exact Hrun |]. split; [exact Hlog |]. split; [reflexivity |].
  vm_compute. reflexivity.
Qed.

(** *** The sweep on a problem it cannot run *)

Lemma sweep_cond_start : sweep_cond sweep_start = true.
Proof. vm_compute. reflexivity. Qed.

Lemma for_float_thrown fuel c body done (w w' : World) what :
  sweep_cond c = true ->
  body c done w = (Thrown what, w') ->
  for_float (S fuel) c body done w = (Thrown what, w').
Proof.
  intros Hcond Hbody. simpl. rewrite Hcond.
  apply bind_thrown. exact Hbody.
Qed.

Lemma optimize_unrecognized d (w : World) :
  objType d <> MINIMIZE ->
  objType d <> MAXIMIZE ->
  exists w' news,
    optimize d w = (Thrown unrecognized, w') /\
    log w' = log w ++ EvOptimize d :: news /\
    sweepTrace news = [] /\
    protocolTrace news = [].
Proof.
  intros Hmin Hmax.
  destruct (initialSetup_spec d w) as (ps & x' & Hinit & _).
  rewrite getGlobalBest_unrecognized in Hinit by assumption.
  eexists. eexists. split; [| split; [| split]].
  - unfold optimize. apply bind_thrown. exact Hinit.
  - reflexivity.
  - apply sweepTrace_news.
  - apply protocolTrace_news.
Qed.

(** X11. On a problem whose [objType] is neither MINIMIZE nor MAXIMIZE the
    sweep does not get past its first trial, whatever the optimizer: the
    three coefficients are set to their first grid value, the trial is
    announced to the listener, [optimize] throws, and the exception leaves
    [searchParameters]. No results are delivered and no progress is
    printed. *)
Theorem searchParameters_unrecognized fuel d (w : World) :
  (1 <= fuel)%nat ->
  objType d <> MINIMIZE ->
  objType d <> MAXIMIZE ->
  exists w' evs,
    searchParameters fuel d w = (Thrown unrecognized, w') /\
    log w' = log w ++ evs /\
    sweepTrace evs = [SetInertia sweep_start; SetCognitive sweep_start;
                      SetSocial sweep_start; Trial] /\
    protocolTrace evs = [Announce].
Proof.
  intros Hfuel Hmin Hmax.
  destruct fuel as [|fuel]; [lia |].
  set (w1 := mkWorld (set_initialInertia sweep_start (set_inertia sweep_start (this w)))
                     (ext w) (log w ++ [EvSetInertia sweep_start])).
  set (w2 := mkWorld (set_cognitive sweep_start (this w1)) (ext w1)
                     (log w1 ++ [EvSetCognitive sweep_start])).
  set (w3 := mkWorld (set_social sweep_start (this w2)) (ext w2)
                     (log w2 ++ [EvSetSocial sweep_start])).
  set (w4 := mkWorld (this w3)
                     (handleAlgorithm (this w3) (name d) (type d) (objType d) (ext w3))
                     (log w3 ++ [EvHandleAlgorithm (this w3)])).
  destruct (optimize_unrecognized d w4 Hmin Hmax) as (w' & news & Hrun & Hlog & Hs & Hp).
  exists w', ([EvSetInertia sweep_start; EvSetCognitive sweep_start;
               EvSetSocial sweep_start; EvHandleAlgorithm (this w3)]
                ++ EvOptimize d :: news).
  split; [| split; [| split]].
  - unfold searchParameters. apply bind_thrown.
    apply for_float_thrown; [exact sweep_cond_start |].
    unfold setInertia.
    rewrite (bind_returned _ _ w tt w1) by reflexivity.
    apply for_float_thrown; [exact sweep_cond_start |].
    unfold setCognitive.
    rewrite (bind_returned _ _ w1 tt w2) by reflexivity.
    apply for_float_thrown; [exact sweep_cond_start |].
    unfold setSocial.
    rewrite (bind_returned _ _ w2 tt w3) by reflexivity.
    apply bind_thrown. simpl trials.
    rewrite (bind_returned _ _ w3 (this w3) w3) by reflexivity.
    rewrite (bind_returned _ _ w3 tt (mkWorld (this w3) (ext w3)
                                              (log w3 ++ [EvHandleAlgorithm (this w3)])))
      by reflexivity.
    rewrite (bind_returned _ _ _ tt w4) by reflexivity.
    apply bind_thrown. exact Hrun.
  - rewrite Hlog. simpl. rewrite <- !app_assoc. reflexivity.
  - rewrite sweepTrace_app.
    change (sweepTrace (EvOptimize d :: news)) with (Trial :: sweepTrace news).
    rewrite Hs. reflexivity.
  - rewrite protocolTrace_app.
    change (protocolTrace (EvOptimize d :: news)) with (protocolTrace news).
    rewrite Hp. reflexivity.
Qed.

End MoreProperties.

(** ** The statements on the concrete configuration *)

#[local] Existing Instance Demo.collab.

Lemma searchParameters_sweep_witness :
  (6 <= 6)%nat /\
  recognized (objType (Demo.problem 0)) /\
  0 < swarmSize (this (Demo.world 2 1 0)) /\
  maxIterations (this (Demo.world 2 1 0)) < INT_MAX /\
  exists w' evs,
    searchParameters 6 (Demo.problem 0) (Demo.world 2 1 0) = (Returned tt, w') /\
    log w' = log (Demo.world 2 1 0) ++ evs /\
    sweepTrace evs = expectedSweep /\
    length (filter isTrial (sweepTrace evs)) = 1250%nat /\
    trialConfigs None None None (sweepTrace evs)
      = flat_map (fun t => repeat t 10) grid3 /\
    NoDup grid3 /\
    length grid3 = 125%nat.
Proof.
  split; [lia |]. split; [left; reflexivity |]. split; [reflexivity |].
  split; [reflexivity |].
  apply (searchParameters_sweep 6 (Demo.problem 0) (Demo.world 2 1 0)).
  - lia.
  - left. reflexivity.
  - reflexivity.
  - reflexivity.
Defined.

(** With an unrecognized [objType] the first trial throws: the sweep ends
    after one call of [optimize]. *)
Lemma searchParameters_unrecognized_counterexample :
  fst (searchParameters 6 (Demo.problem 2) (Demo.world 2 1 2)) = Thrown unrecognized /\
  length (filter isTrial
            (sweepTrace (log (snd (searchParameters 6 (Demo.problem 2)
                                                    (Demo.world 2 1 2))))))
    = 1%nat /\
  length (filter isTrial
            (sweepTrace (log (snd (searchParameters 6 (Demo.problem 2)
                                                    (Demo.world 2 1 2))))))
    <> 1250%nat.
Proof. vm_compute. repeat split. discriminate. Qed.


Lemma optimize_uBest_monotone_witness :
  @MINIMIZE _ _ Demo.collab <> MAXIMIZE /\
  initialSetup (Demo.problem 0) (Demo.world 3 2 0)
    = (Returned (Demo.firstBest 3 2 0), Demo.afterSetup 3 2 0) /\
  maxIterations (this (Demo.world 3 2 0)) < INT_MAX /\
  exists r w' evs,
    optimize (Demo.problem 0) (Demo.world 3 2 0) = (Returned r, w') /\
    log w' = log (Demo.afterSetup 3 2 0) ++ evs /\
    length (bestHistory evs) = Z.to_nat (maxIterations (this (Demo.world 3 2 0))) /\
    Sorted (neverWorse (comparator (this (Demo.afterSetup 3 2 0))))
           (fitness (Demo.firstBest 3 2 0) :: bestHistory evs) /\
    cmpType (comparator (this (Demo.afterSetup 3 2 0))) = objType (Demo.problem 0) /\
    (objType (Demo.problem 0) = MINIMIZE ->
     Sorted Z.ge (fitness (Demo.firstBest 3 2 0) :: bestHistory evs)) /\
    (objType (Demo.problem 0) = MAXIMIZE ->
     Sorted Z.le (fitness (Demo.firstBest 3 2 0) :: bestHistory evs)) /\
    r_fitness r = last (bestHistory evs) (fitness (Demo.firstBest 3 2 0)).
Proof.
  split; [discriminate |]. split; [vm_compute; reflexivity |].
  split; [reflexivity |].
  apply (optimize_uBest_monotone (Demo.problem 0) (Demo.world 3 2 0)).
  - discriminate.
  - vm_compute. reflexivity.
  - reflexivity.
Defined.

(** On a problem of type 2 the assignments are not the position: they
    are the assignment strategy's answer for it. *)
Lemma optimize_assignments_recomputed_witness :
  @MINIMIZE _ _ Demo.collab <> MAXIMIZE /\
  optimize DemoMore.typed (Demo.world 3 2 0)
    = (Returned DemoMore.typedResults, DemoMore.typedAfter) /\
  exists g w0 evs uBest,
    initialSetup DemoMore.typed (Demo.world 3 2 0) = (Returned g, w0) /\
    log DemoMore.typedAfter = log w0 ++ evs /\
    uBest = last (reported evs) g /\
    bestOfSwarm_inv DemoMore.typedAfter uBest /\
    r_fitness DemoMore.typedResults = fitness uBest /\
    r_position DemoMore.typedResults = position uBest /\
    r_customerAssignments DemoMore.typedResults =
    AssignmentStrategy_assign (costs DemoMore.typed) (position uBest)
                              (type DemoMore.typed) /\
    r_customerAssignments DemoMore.typedResults
    = Particle_getCustomerAssignments (this DemoMore.typedAfter) uBest.
Proof.
  split; [discriminate |]. split; [vm_compute; reflexivity |].
  apply (optimize_assignments_recomputed DemoMore.typed (Demo.world 3 2 0)
                                         DemoMore.typedAfter DemoMore.typedResults).
  - discriminate.
  - vm_compute. reflexivity.
Defined.

Example optimize_typed_run :
  fst (optimize DemoMore.typed (Demo.world 3 2 0)) = Returned DemoMore.typedResults /\
  r_customerAssignments DemoMore.typedResults
  = map (fun f => f + 2) (r_position DemoMore.typedResults) /\
  r_customerAssignments DemoMore.typedResults <> r_position DemoMore.typedResults.
Proof. vm_compute. repeat split. discriminate. Qed.

(** The objective strategy is handed the problem's [type], here 0, and not
    its [objType], here 1. *)
Lemma calcObjective_objType_counterexample :
  calcObjective [1; 2] (Demo.world 3 2 1) = (Returned 3, Demo.world 3 2 1) /\
  calcObjective_spec (this (Demo.world 3 2 1)) [1; 2] = 4 /\
  fst (calcObjective [1; 2] (Demo.world 3 2 1))
    <> Returned (calcObjective_spec (this (Demo.world 3 2 1)) [1; 2]).
Proof. vm_compute. repeat split. discriminate. Qed.

Lemma getGlobalBest_unrecognized_objType_witness :
  objType (Demo.problem 7) <> MINIMIZE /\
  objType (Demo.problem 7) <> MAXIMIZE /\
  (forall w : World Demo.particle (Z * Z),
      data (this w) = Demo.problem 7 -> getGlobalBest w = (Thrown unrecognized, w)) /\
  (forall w : World Demo.particle (Z * Z),
      fst (optimize (Demo.problem 7) w) = Thrown unrecognized).
Proof.
  split; [discriminate |]. split; [discriminate |].
  apply (getGlobalBest_unrecognized_objType (Demo.problem 7)); discriminate.
Defined.

Lemma getGlobalBest_empty_swarm_witness :
  swarm (this (Demo.worldWith [] 7)) = [] /\
  getGlobalBest (Demo.worldWith [] 7) = (Thrown unrecognized, Demo.worldWith [] 7).
Proof.
  split; [reflexivity |].
  exact (getGlobalBest_empty_swarm (Demo.worldWith [] 7) eq_refl).
Defined.

(** On an empty swarm, under MINIMIZE, nothing is thrown: the call is
    undefined. *)
Lemma getGlobalBest_empty_swarm_counterexample :
  swarm (this (Demo.worldWith [] 0)) = [] /\
  objType (data (this (Demo.worldWith [] 0))) = MINIMIZE /\
  getGlobalBest (Demo.worldWith [] 0) = (Undefined, Demo.worldWith [] 0) /\
  isThrown (fst (getGlobalBest (Demo.worldWith [] 0))) = false.
Proof. vm_compute. repeat split. Qed.

(** With a negative [swarmSize] the swarm is left empty. *)
Lemma initSwarm_negative_size_counterexample :
  swarmSize (this (Demo.world (-1) 2 0)) = -1 /\
  fst (initSwarm (Demo.world (-1) 2 0)) = Returned tt /\
  length (swarm (this (snd (initSwarm (Demo.world (-1) 2 0))))) = O /\
  Z.of_nat (length (swarm (this (snd (initSwarm (Demo.world (-1) 2 0))))))
    <> swarmSize (this (Demo.world (-1) 2 0)).
Proof. vm_compute. repeat split. discriminate. Qed.

Lemma optimize_zero_iterations_witness :
  @MINIMIZE _ _ Demo.collab <> MAXIMIZE /\
  recognized (objType (Demo.problem 0)) /\
  0 < swarmSize (this (Demo.world 3 0 0)) /\
  maxIterations (this (Demo.world 3 0 0)) = 0 /\
  exists r w' g,
    optimize (Demo.problem 0) (Demo.world 3 0 0) = (Returned r, w') /\
    log w' = log (Demo.world 3 0 0) ++ EvOptimize (Demo.problem 0)
                 :: repeat (EvParticleNew (numFacilities (Demo.problem 0))
                                          (numCustomers (Demo.problem 0)))
                           (Z.to_nat (swarmSize (this (Demo.world 3 0 0)))) /\
    length (swarm (this w')) = Z.to_nat (swarmSize (this (Demo.world 3 0 0))) /\
    (objType (Demo.problem 0) = MINIMIZE ->
     exists i, firstMinimalAt (swarm (this w')) i g) /\
    (objType (Demo.problem 0) = MAXIMIZE ->
     exists i, firstMaximalAt (swarm (this w')) i g) /\
    r_fitness r = fitness g /\
    r_position r = position g /\
    r_customerAssignments r = Particle_getCustomerAssignments (this w') g /\
    r_customerAssignments r =
    AssignmentStrategy_assign (costs (Demo.problem 0)) (position g)
                              (type (Demo.problem 0)).
Proof.
  split; [discriminate |]. split; [left; reflexivity |].
  split; [reflexivity |]. split; [reflexivity |].
  apply (optimize_zero_iterations (Demo.problem 0) (Demo.world 3 0 0)).
  - discriminate.
  - left. reflexivity.
  - reflexivity.
  - reflexivity.
Defined.

(** With [maxIterations = 0] and an [objType] that is not recognized, the
    call is an error: the first selection throws. *)
Lemma optimize_zero_iterations_counterexample :
  maxIterations (this (Demo.world 3 0 7)) = 0 /\
  fst (optimize (Demo.problem 7) (Demo.world 3 0 7)) = Thrown unrecognized /\
  isReturned (fst (optimize (Demo.problem 7) (Demo.world 3 0 7))) = false.
Proof. vm_compute. repeat split. Qed.

Lemma getGlobalBest_first_extremal_witness :
  swarm (this (Demo.worldWith Demo.tied 0)) <> [] /\
  @MINIMIZE _ _ Demo.collab <> MAXIMIZE /\
  objType (data (this (Demo.worldWith Demo.tied 0))) = MINIMIZE /\
  objType (data (this (Demo.worldWith Demo.tied 1))) = MAXIMIZE /\
  (exists i p,
      getGlobalBest (Demo.worldWith Demo.tied 0) = (Returned p, Demo.worldWith Demo.tied 0) /\
      firstMinimalAt (swarm (this (Demo.worldWith Demo.tied 0))) i p) /\
  (exists i p,
      getGlobalBest (Demo.worldWith Demo.tied 1) = (Returned p, Demo.worldWith Demo.tied 1) /\
      firstMaximalAt (swarm (this (Demo.worldWith Demo.tied 1))) i p).
Proof.
  split; [discriminate |]. split; [discriminate |].
  split; [reflexivity |]. split; [reflexivity |]. split.
  - apply (getGlobalBest_first_extremal (Demo.worldWith Demo.tied 0));
      [discriminate | discriminate | reflexivity].
  - apply (getGlobalBest_first_extremal (Demo.worldWith Demo.tied 1));
      [discriminate | discriminate | reflexivity].
Defined.

(** The selection on the tied swarm: the second particle under MINIMIZE,
    the first under MAXIMIZE. *)
Example getGlobalBest_tied :
  fst (getGlobalBest (Demo.worldWith Demo.tied 0)) = Returned (Demo.mkParticle [1; 1] 3) /\
  fst (getGlobalBest (Demo.worldWith Demo.tied 1)) = Returned (Demo.mkParticle [0; 1] 5).
Proof. vm_compute. split; reflexivity. Qed.

(** ** The further properties on the concrete configuration *)

(** An optimizer with no particle to build, and one whose iteration count
    is the largest [int]. *)
Lemma optimize_outcome_witness :
  recognized (objType (Demo.problem 0)) /\
  swarmSize (this (Demo.world 0 2 0)) <= 0 /\
  maxIterations (this (Demo.world 3 2147483647 0)) = INT_MAX /\
  fst (optimize (Demo.problem 0) (Demo.world 0 2 0)) = Undefined /\
  fst (optimize (Demo.problem 0) (Demo.world 3 2147483647 0)) = Undefined.
Proof.
  split; [left; reflexivity |]. split; [discriminate |]. split; [reflexivity |].
  split.
  - apply (optimize_outcome (Demo.problem 0) (Demo.world 0 2 0)).
    + left. reflexivity.
    + left. discriminate.
  - apply (optimize_outcome (Demo.problem 0) (Demo.world 3 2147483647 0)).
    + left. reflexivity.
    + right. reflexivity.
Defined.

Lemma optimize_leaves_witness :
  recognized (objType (Demo.problem 0)) /\
  Runnable (Demo.world 3 2 0) /\
  ~ recognized (objType (Demo.problem 7)) /\
  (exists r w',
      optimize (Demo.problem 0) (Demo.world 3 2 0) = (Returned r, w') /\
      leaves (Demo.problem 0) (Demo.world 3 2 0) w' /\
      inertia (this w') =
      discounted (Z.to_nat (maxIterations (this (Demo.world 3 2 0))))
                 (initialInertia (this (Demo.world 3 2 0)))
                 (inertialDiscount (this (Demo.world 3 2 0)))) /\
  (exists w',
      optimize (Demo.problem 7) (Demo.world 3 2 0) = (Thrown unrecognized, w') /\
      leaves (Demo.problem 7) (Demo.world 3 2 0) w' /\
      inertia (this w') = inertia (this (Demo.world 3 2 0))).
Proof.
  assert (Hrec : recognized (objType (Demo.problem 0))) by (left; reflexivity).
  assert (Hrun : Runnable (Demo.world 3 2 0)) by (split; reflexivity).
  assert (Hnrec : ~ recognized (objType (Demo.problem 7)))
    by (intros [H | H]; discriminate H).
  split; [exact Hrec |]. split; [exact Hrun |]. split; [exact Hnrec |].
  split.
  - exact (proj1 (optimize_leaves (Demo.problem 0) (Demo.world 3 2 0)) Hrec Hrun).
  - exact (proj2 (optimize_leaves (Demo.problem 7) (Demo.world 3 2 0)) Hnrec).
Defined.

Lemma optimize_beats_the_swarm_witness :
  @MINIMIZE _ _ Demo.collab <> MAXIMIZE /\
  initialSetup (Demo.problem 0) (Demo.world 3 2 0)
    = (Returned (Demo.firstBest 3 2 0), Demo.afterSetup 3 2 0) /\
  maxIterations (this (Demo.world 3 2 0)) < INT_MAX /\
  exists r w',
    optimize (Demo.problem 0) (Demo.world 3 2 0) = (Returned r, w') /\
    (objType (Demo.problem 0) = MINIMIZE ->
     forall p, In p (swarm (this (Demo.afterSetup 3 2 0))) \/ In p (swarm (this w')) ->
               r_fitness r <= fitness p) /\
    (objType (Demo.problem 0) = MAXIMIZE ->
     forall p, In p (swarm (this (Demo.afterSetup 3 2 0))) \/ In p (swarm (this w')) ->
               fitness p <= r_fitness r).
Proof.
  split; [discriminate |]. split; [vm_compute; reflexivity |].
  split; [reflexivity |].
  apply (optimize_beats_the_swarm (Demo.problem 0) (Demo.world 3 2 0)
                                  (Demo.afterSetup 3 2 0) (Demo.firstBest 3 2 0)).
  - discriminate.
  - vm_compute. reflexivity.
  - reflexivity.
Defined.

Lemma optimize_nonpositive_iterations_witness :
  maxIterations (this (Demo.world 3 (-2) 0)) <= 0 /\
  initialSetup (Demo.problem 0) (Demo.world 3 (-2) 0)
    = (Returned (Demo.firstBest 3 (-2) 0), Demo.afterSetup 3 (-2) 0) /\
  exists r w',
    optimize (Demo.problem 0) (Demo.world 3 (-2) 0) = (Returned r, w') /\
    r_fitness r = fitness (Demo.firstBest 3 (-2) 0) /\
    r_position r = position (Demo.firstBest 3 (-2) 0) /\
    log w' = log (Demo.afterSetup 3 (-2) 0) /\
    swarm (this w') = swarm (this (Demo.afterSetup 3 (-2) 0)) /\
    inertia (this w') = initialInertia (this (Demo.world 3 (-2) 0)).
Proof.
  split; [discriminate |]. split; [vm_compute; reflexivity |].
  apply (optimize_nonpositive_iterations (Demo.problem 0) (Demo.world 3 (-2) 0)).
  - discriminate.
  - vm_compute. reflexivity.
Defined.

Lemma iteration_snapshot_witness :
  Ready DemoMore.ready /\
  exists g' u' w' calls,
    iteration 1 (Demo.firstBest 3 2 0, Demo.firstBest 3 2 0) DemoMore.ready
      = (Returned (g', u'), w') /\
    log w' = log DemoMore.ready
                 ++ map (fun t => EvParticleUpdate t (Demo.firstBest 3 2 0)) calls
                 ++ [EvHandleParticle u' 1] /\
    length calls = length (swarm (this DemoMore.ready)) /\
    Forall2 (fun old new =>
               exists (t : NDPSO Demo.particle) (x : Z * Z),
                 new = fst (Particle_update t (Demo.firstBest 3 2 0) old x))
            (swarm (this DemoMore.ready)) (swarm (this w')) /\
    fst (getGlobalBest w') = Returned g' /\
    (u' = g' \/ u' = Demo.firstBest 3 2 0).
Proof.
  assert (Hready : Ready DemoMore.ready).
  { split; [vm_compute; discriminate |]. split; [left; reflexivity | reflexivity]. }
  split; [exact Hready |].
  apply (iteration_snapshot 1 (Demo.firstBest 3 2 0) (Demo.firstBest 3 2 0)
                            DemoMore.ready Hready).
Defined.

Lemma searchParameters_protocol_witness :
  (6 <= 6)%nat /\
  recognized (objType (Demo.problem 1)) /\
  0 < swarmSize (this (Demo.world 2 1 1)) /\
  maxIterations (this (Demo.world 2 1 1)) < INT_MAX /\
  exists w' evs,
    searchParameters 6 (Demo.problem 1) (Demo.world 2 1 1) = (Returned tt, w') /\
    log w' = log (Demo.world 2 1 1) ++ evs /\
    trialTrace evs = expectedTrials (Demo.problem 1) /\
    last (trialTrace evs) Announced = Printed 1250.
Proof.
  split; [lia |]. split; [right; reflexivity |]. split; [reflexivity |].
  split; [reflexivity |].
  apply (searchParameters_protocol 6 (Demo.problem 1) (Demo.world 2 1 1)).
  - lia.
  - right. reflexivity.
  - reflexivity.
  - reflexivity.
Defined.

Lemma searchParameters_unrecognized_witness :
  (1 <= 6)%nat /\
  objType (Demo.problem 7) <> MINIMIZE /\
  objType (Demo.problem 7) <> MAXIMIZE /\
  exists w' evs,
    searchParameters 6 (Demo.problem 7) (Demo.world 2 1 0) = (Thrown unrecognized, w') /\
    log w' = log (Demo.world 2 1 0) ++ evs /\
    sweepTrace evs = [SetInertia sweep_start; SetCognitive sweep_start;
                      SetSocial sweep_start; Trial] /\
    protocolTrace evs = [Announce].
Proof.
  split; [lia |]. split; [discriminate |]. split; [discriminate |].
  apply (searchParameters_unrecognized 6 (Demo.problem 7) (Demo.world 2 1 0)).
  - lia.
  - discriminate.
  - discriminate.
Defined.
